(** * Whisper transcription service: the request pipeline of [main.py]

    A shallow embedding of the FastAPI handlers of [main.py] (the start-up
    hook [load_model], [health_check] and [transcribe]) and of the pieces
    of the Python runtime they call: [str.lower], [str.strip],
    [str.join], [pathlib.Path.suffix], [tempfile.NamedTemporaryFile],
    [os.path.exists] and [os.unlink].

    Python strings are sequences of Unicode code points; the disk is a
    finite map from paths to file contents; everything the handler does
    to the outside world is recorded in a trace of events.

    Conventions: paths are POSIX paths and [Path.suffix] is the one of
    [pathlib] up to Python 3.13; what a step raises is an instance of
    [Exception] (what [except Exception] catches); the [logging] calls
    themselves do not raise. *)

From Stdlib Require Import ZArith NArith Lia String Ascii DecimalString.
From Stdlib Require Import DecimalPos DecimalN.
From stdpp Require Import base option list gmap.

Local Open Scope Z_scope.

(** ** Python strings *)

(** A [str] is the list of its code points. *)
Abbreviation str := (list N).

(** The code points of an ASCII literal. *)
Definition lit (s : string) : str :=
  List.map N_of_ascii (list_ascii_of_string s).

Module Str.

(** [Py_UNICODE_ISSPACE]: the characters [str.strip] removes. *)
Definition isspace (c : N) : bool :=
  ((9 <=? c) && (c <=? 13) || (28 <=? c) && (c <=? 32)
   || (c =? 133) || (c =? 160) || (c =? 5760)
   || (8192 <=? c) && (c <=? 8202)
   || (c =? 8232) || (c =? 8233) || (c =? 8239) || (c =? 8287)
   || (c =? 12288))%N.

(** [s.lstrip()] *)
Fixpoint lstrip (s : str) : str :=
  match s with
  | [] => []
  | c :: s' => if isspace c then lstrip s' else s
  end.

(** [s.rstrip()] *)
Definition rstrip (s : str) : str := reverse (lstrip (reverse s)).

(** [s.strip()]: both ends. *)
Definition strip (s : str) : str := rstrip (lstrip s).

Definition is_ascii (c : N) : bool := (c <? 128)%N.

(** [Py_TOLOWER] on an ASCII character. *)
Definition ascii_lower (c : N) : N :=
  if ((65 <=? c) && (c <=? 90))%N then (c + 32)%N else c.

(** [s.lower()].  CPython lower-cases an all-ASCII string character by
    character; any other string goes through the Unicode case tables,
    which are not part of this repository: [case_tables] stands for
    them. *)
Definition lower (case_tables : str -> str) (s : str) : str :=
  if forallb is_ascii s then List.map ascii_lower s else case_tables s.

(** [sep.join(parts)] *)
Fixpoint join (sep : str) (parts : list str) : str :=
  match parts with
  | [] => []
  | [p] => p
  | p :: ps => p ++ sep ++ join sep ps
  end.

(** [s.split(sep)] for a one-character separator. *)
Fixpoint split (sep : N) (s : str) : list str :=
  match s with
  | [] => [[]]
  | c :: s' =>
      if (c =? sep)%N then [] :: split sep s'
      else match split sep s' with
           | [] => [[c]]
           | w :: ws => (c :: w) :: ws
           end
  end.

(** [s.rfind(c)]: the index of the last occurrence of [c], or [-1]. *)
Fixpoint rfind_from (c : N) (s : str) (i last : Z) : Z :=
  match s with
  | [] => last
  | x :: s' => rfind_from c s' (i + 1) (if (x =? c)%N then i else last)
  end.

Definition rfind (c : N) (s : str) : Z := rfind_from c s 0 (-1).

(** [len(s)] *)
Definition len (s : str) : Z := Z.of_nat (length s).

(** [s[i:]] for [0 <= i]. *)
Definition slice_from (i : Z) (s : str) : str := drop (Z.to_nat i) s.

(** [str(n)] for a non-negative integer. *)
Definition of_int (n : Z) : str :=
  lit (NilZero.string_of_uint (N.to_uint (Z.to_N n))).

End Str.

(** ** [pathlib]: the suffix of a POSIX path *)

Module Pathlib.

Definition slash : N := 47%N.
Definition dot : N := 46%N.

(** The components [Path(p)] keeps: the pieces between slashes, without
    the empty ones and without ["."]. *)
Definition parts (p : str) : list str :=
  List.filter (fun x => negb (bool_decide (x = [])) &&
                        negb (bool_decide (x = [dot])))
              (Str.split slash p).

(** [Path(p).name]: the final component, the empty string when there is none. *)
Definition name (p : str) : str := List.last (parts p) [].

(** [Path(p).suffix]:
<<
    name = self.name
    i = name.rfind('.')
    if 0 < i < len(name) - 1: return name[i:]
    else: return ''
>>  *)
Definition Path_suffix (p : str) : str :=
  let name := name p in
  let i := Str.rfind dot name in
  if (0 <? i) && (i <? Str.len name - 1) then Str.slice_from i name
  else [].

End Pathlib.

(** ** Exceptions and results *)

(** What Python code raises: an instance of [Exception], given by its
    class name and [str(e)], or FastAPI's [HTTPException]. *)
Inductive exn :=
| Exn (cls : str) (msg : str)
| HTTPException (status_code : Z) (detail : str).

(** [str(e)] *)
Definition str_of_exn (e : exn) : str :=
  match e with
  | Exn _ msg => msg
  | HTTPException code detail => Str.of_int code ++ lit ": " ++ detail
  end.

(** ['X' object has no attribute 'a'] *)
Definition AttributeError (ty attr : string) : exn :=
  Exn (lit "AttributeError")
      (lit "'" ++ lit ty ++ lit "' object has no attribute '" ++ lit attr
       ++ lit "'").

(** Values found in the dictionary the transcriber returns. *)
Inductive pyval :=
| PyNone
| PyStr (s : str)
| PyOther (ty : string).

(** [JSONResponse(status_code=..., content={...})]; the content is a flat
    object of strings, in the order of the dict literal. *)
Record JSONResponse := {
  status_code : Z;
  content : list (str * str)
}.

(** ** The process and its surroundings *)

Abbreviation bytes := (list Byte.byte).

(** The loaded model: [transcribe(path, language=...)] decodes the file
    found on disk at [path] and returns a dict, or raises. *)
Definition Transcriber : Type :=
  gmap str bytes -> str -> str -> exn + gmap str pyval.

Inductive level := INFO | WARNING | ERROR.

(** What the handlers do to the outside world. *)
Inductive event :=
| Log (lvl : level) (msg : str)
| LoadModel (name : str)
| TmpCreate (path : str)
| TmpWrite (path : str) (data : bytes)
| Transcribe (path : str) (language : str)
| Unlink (path : str) (ok : bool).

(** The module-level global [model], the disk and the trace so far. *)
Record state := {
  model : option Transcriber;
  disk : gmap str bytes;
  trace : list event
}.

(** The locals of one call of [transcribe]. *)
Record frame := {
  proc : state;
  temp_file : option str
}.

(** [UploadFile]: the declared name of the uploaded part (a multipart
    part without a name is not a file and never reaches the handler), and
    what [await file.read()] gives. *)
Record UploadFile := {
  filename : str;
  read : exn + bytes
}.

(** What the operating system does during one request. *)
Record environment := {
  (** [tempfile.gettempdir()] *)
  tmp_dir : str;
  (** the random names [tempfile] draws, in order *)
  tmp_names : list str;
  (** [os.open] failing for another reason than an existing file *)
  open_error : option exn;
  (** writing the buffer into the file fails ([tmp.write], or the flush
      when the [with] block closes the file) *)
  write_error : option exn;
  (** the file is removed behind the handler's back before the clean-up *)
  removed_by_other : bool;
  (** [os.unlink] fails *)
  unlink_error : option exn
}.

(** The order in which Python iterates the three-element set
    [allowed_types]; it depends on the string hash seed of the process. *)
Inductive set_order := MWA | MAW | WMA | WAM | AMW | AWM.

(** What the Python runtime of the process fixes. *)
Record runtime := {
  case_tables : str -> str;
  hash_order : set_order
}.

(** ** A state and exception monad *)

Definition M (S A : Type) : Type := S -> S * (exn + A).

#[export] Instance M_ret {S} : MRet (M S) := fun A (a : A) s => (s, inr a).

#[export] Instance M_bind {S} : MBind (M S) :=
  fun A B (f : A -> M S B) (m : M S A) s =>
    match m s with
    | (s', inl e) => (s', inl e)
    | (s', inr a) => f a s'
    end.

(** [raise e] *)
Definition raise {S A} (e : exn) : M S A := fun s => (s, inl e).

(** An expression that returns a value or raises. *)
Definition or_raise {S A} (r : exn + A) : M S A := fun s => (s, r).

Definition get {S} : M S S := fun s => (s, inr s).

Definition modify {S} (f : S -> S) : M S unit := fun s => (f s, inr tt).

(** [try: body / except Exception as e: handler e] *)
Definition try_except {S A} (body : M S A) (handler : exn -> M S A) : M S A :=
  fun s =>
    match body s with
    | (s', inl e) => handler e s'
    | r => r
    end.

(** [try: body / finally: fin]: [fin] runs on every exit; an exception
    raised by [fin] replaces the outcome of [body]. *)
Definition try_finally {S A} (body : M S A) (fin : M S unit) : M S A :=
  fun s =>
    match body s with
    | (s', r) =>
        match fin s' with
        | (s'', inl e) => (s'', inl e)
        | (s'', inr _) => (s'', r)
        end
    end.

Definition with_trace (st : state) (t : list event) : state :=
  {| model := model st; disk := disk st; trace := t |}.

Definition with_disk (st : state) (d : gmap str bytes) : state :=
  {| model := model st; disk := d; trace := trace st |}.

Definition with_model (st : state) (m : option Transcriber) : state :=
  {| model := m; disk := disk st; trace := trace st |}.

Definition emit (ev : event) : M state unit :=
  modify (fun st => with_trace st (trace st ++ [ev])).

(** A step of the process, run from inside a handler's frame. *)
Definition on_proc {A} (m : M state A) : M frame A :=
  fun fr =>
    match m (proc fr) with
    | (st', r) => ({| proc := st'; temp_file := temp_file fr |}, r)
    end.

(** A call of a handler body: the frame starts with [temp_file = None]
    and is dropped when the call ends. *)
Definition with_locals {A} (m : M frame A) : M state A :=
  fun st =>
    match m {| proc := st; temp_file := None |} with
    | (fr, r) => (proc fr, r)
    end.

Definition set_temp_file (p : str) : M frame unit :=
  modify (fun fr => {| proc := proc fr; temp_file := Some p |}).

(** ** The handlers of [main.py] *)

Inductive http_result :=
| Response (r : JSONResponse)
| Uncaught (e : exn).

Definition mp3 : str := lit ".mp3".
Definition wav : str := lit ".wav".
Definition m4a : str := lit ".m4a".

(** [allowed_types = {".mp3", ".wav", ".m4a"}] *)
Definition allowed_types : gset str := {[ mp3; wav; m4a ]}.

(** Iterating over [allowed_types]. *)
Definition iterate (o : set_order) : list str :=
  match o with
  | MWA => [mp3; wav; m4a]
  | MAW => [mp3; m4a; wav]
  | WMA => [wav; mp3; m4a]
  | WAM => [wav; m4a; mp3]
  | AMW => [m4a; mp3; wav]
  | AWM => [m4a; wav; mp3]
  end.

(** [logger.info], [logger.warning], [logger.error] *)
Definition logger (lvl : level) (msg : str) : M state unit :=
  emit (Log lvl msg).

(** [d.get(key, dflt)] *)
Definition dict_get (d : gmap str pyval) (key : str) (dflt : pyval) : pyval :=
  default dflt (d !! key).

(** [v.strip()]: only a [str] has the method. *)
Definition py_strip (v : pyval) : exn + str :=
  match v with
  | PyStr s => inr (Str.strip s)
  | PyNone => inl (AttributeError "NoneType" "strip")
  | PyOther ty => inl (AttributeError ty "strip")
  end.

(** [await file.read()] *)
Definition file_read (file : UploadFile) : M state bytes :=
  or_raise (read file).

(** [model.transcribe(path, language=lang)] on the global [model]. *)
Definition model_transcribe (path lang : str) : M state (gmap str pyval) :=
  st ← get;
  match model st with
  | None => raise (AttributeError "NoneType" "transcribe")
  | Some whisper =>
      emit (Transcribe path lang);;
      or_raise (whisper (disk st) path lang)
  end.

(** [os.path.join(a, b)] for a relative [b]. *)
Definition os_path_join (a b : str) : str :=
  match last a with
  | None => b
  | Some c => if (c =? Pathlib.slash)%N then a ++ b else a ++ lit "/" ++ b
  end.

Section Handlers.

Context (py : runtime) (env : environment).

(** The path [tempfile] settles on:
    [os.path.join(dir, "tmp" + name + suffix)] for the first drawn
    [name] that names no existing file. *)
Definition free_name (suffix : str) (d : gmap str bytes) : option str :=
  List.find
    (fun p => match d !! p with Some _ => false | None => true end)
    (List.map (fun n => os_path_join (tmp_dir env) (lit "tmp" ++ n ++ suffix))
              (tmp_names env)).

(** [tempfile.NamedTemporaryFile(suffix=suffix, delete=False)]: the
    file is created exclusively, empty; [tmp.name] is returned. *)
Definition NamedTemporaryFile (suffix : str) : M state str :=
  st ← get;
  match open_error env with
  | Some e => raise e
  | None =>
      match free_name suffix (disk st) with
      | Some p =>
          modify (fun st => with_disk st (<[p := []]> (disk st)));;
          emit (TmpCreate p);;
          mret p
      | None =>
          raise (Exn (lit "FileExistsError")
                     (lit "[Errno 17] No usable temporary file name found"))
      end
  end.

(** [tmp.write(contents)], flushed when the [with] block ends. *)
Definition tmp_write (p : str) (contents : bytes) : M state unit :=
  match write_error env with
  | Some e => raise e
  | None =>
      modify (fun st => with_disk st (<[p := contents]> (disk st)));;
      emit (TmpWrite p contents)
  end.

(** [os.path.exists(p)], at the moment of the clean-up. *)
Definition os_path_exists (p : str) : M state bool :=
  (if removed_by_other env
   then modify (fun st => with_disk st (delete p (disk st)))
   else mret tt);;
  st ← get;
  mret (match disk st !! p with Some _ => true | None => false end).

(** [os.unlink(p)] *)
Definition os_unlink (p : str) : M state unit :=
  match unlink_error env with
  | Some e => emit (Unlink p false);; raise e
  | None =>
      modify (fun st => with_disk st (delete p (disk st)));;
      emit (Unlink p true)
  end.

(** The [finally] block of [transcribe]:
<<
      if temp_file and os.path.exists(temp_file):
          try:
              os.unlink(temp_file)
              logger.info("Temporary file cleaned up")
          except Exception as e:
              logger.warning(f"Failed to delete temp file: {e}")
>>  *)
Definition cleanup : M frame unit :=
  fr ← get;
  match temp_file fr with
  | None => mret tt
  | Some p =>
      if bool_decide (p = []) then mret tt
      else
        present ← on_proc (os_path_exists p);
        if present : bool then
          try_except
            (on_proc (os_unlink p);;
             on_proc (logger INFO (lit "Temporary file cleaned up")))
            (fun e =>
               on_proc (logger WARNING
                          (lit "Failed to delete temp file: "
                           ++ str_of_exn e)))
        else mret tt
  end.

(** The body of the [try] block of [transcribe]:
<<
      with tempfile.NamedTemporaryFile(suffix=file_ext, delete=False) as tmp:
          temp_file = tmp.name
          contents = await file.read()
          tmp.write(contents)
      logger.info(f"Processing file: {file.filename}")
      result = model.transcribe(temp_file, language="en")
      transcribed_text = result.get("text", '').strip()
      logger.info(f"Transcription completed. Length: ... chars")
      return JSONResponse(status_code=200, content={"text": transcribed_text})
>>
    [tmp] below is [tmp.name], the value [temp_file] holds from the second
    line on. *)
Definition transcribe_body (file : UploadFile) (file_ext : str)
  : M frame JSONResponse :=
  tmp ← on_proc (NamedTemporaryFile file_ext);
  set_temp_file tmp;;
  contents ← on_proc (file_read file);
  on_proc (tmp_write tmp contents);;
  on_proc (logger INFO (lit "Processing file: " ++ filename file));;
  result ← on_proc (model_transcribe tmp (lit "en"));
  transcribed_text ←
    or_raise (py_strip (dict_get result (lit "text") (PyStr [])));
  on_proc (logger INFO (lit "Transcription completed. Length: "
                        ++ Str.of_int (Str.len transcribed_text)
                        ++ lit " chars"));;
  mret {| status_code := 200;
          content := [(lit "text", transcribed_text)] |}.

(** [async def transcribe(file)]: the validation, then
    [temp_file = None] and the [try] / [except Exception] / [finally]
    statement. *)
Definition transcribe (file : UploadFile) : M state JSONResponse :=
  let file_ext :=
    Str.lower (case_tables py) (Pathlib.Path_suffix (filename file)) in
  if negb (bool_decide (file_ext ∈ allowed_types)) then
    raise (HTTPException 400
             (lit "Unsupported file type: " ++ file_ext
              ++ lit ". Supported types: "
              ++ Str.join (lit ", ") (iterate (hash_order py))))
  else
    with_locals
      (try_finally
         (try_except
            (transcribe_body file file_ext)
            (fun e =>
               on_proc (logger ERROR
                          (lit "Transcription error: " ++ str_of_exn e));;
               raise (HTTPException 500
                        (lit "Transcription failed: " ++ str_of_exn e))))
         cleanup).


End Handlers.

(** [async def load_model()], the start-up hook:
<<
      global model
      try:
          logger.info("Loading Whisper model (tiny)...")
          model = whisper.load_model("tiny")
          logger.info("Model loaded successfully")
      except Exception as e:
          logger.error(f"Failed to load model: {e}")
          raise
>>
    [whisper_load_model] is [whisper.load_model]: it returns the model or
    raises. *)
Definition load_model (whisper_load_model : str -> exn + Transcriber)
  : M state unit :=
  try_except
    (logger INFO (lit "Loading Whisper model (tiny)...");;
     emit (LoadModel (lit "tiny"));;
     whisper ← or_raise (whisper_load_model (lit "tiny"));
     modify (fun st => with_model st (Some whisper));;
     logger INFO (lit "Model loaded successfully"))
    (fun e =>
       logger ERROR (lit "Failed to load model: " ++ str_of_exn e);;
       raise e).

(** ** The framework around the handlers *)

(** FastAPI turns a returned response into itself, an [HTTPException]
    into a JSON body [{"detail": ...}] with its status code, and lets any
    other exception through to the server. *)
Definition respond (r : exn + JSONResponse) : http_result :=
  match r with
  | inr resp => Response resp
  | inl (HTTPException code detail) =>
      Response {| status_code := code;
                  content := [(lit "detail", detail)] |}
  | inl e => Uncaught e
  end.

(** [POST /transcribe] *)
Definition POST_transcribe (py : runtime) (env : environment)
    (file : UploadFile) (st : state) : state * http_result :=
  match transcribe py env file st with
  | (st', r) => (st', respond r)
  end.


(** A process before its start-up hook ran: [model = None]. *)
Definition fresh_process (d : gmap str bytes) : state :=
  {| model := None; disk := d; trace := [] |}.

(** The server runs the start-up hook first; it serves requests when the
    hook returns and exits when the hook raises. *)
Inductive server :=
| Serving (st : state)
| Exited (st : state).

Definition startup (whisper_load_model : str -> exn + Transcriber)
    (st : state) : server :=
  match load_model whisper_load_model st with
  | (st', inr _) => Serving st'
  | (st', inl _) => Exited st'
  end.

(** Requests served one after the other, each with what the operating
    system does during it; the answers come back in order. *)
Fixpoint serve (py : runtime) (reqs : list (environment * UploadFile))
    (st : state) : state * list http_result :=
  match reqs with
  | [] => (st, [])
  | (env, file) :: reqs' =>
      match POST_transcribe py env file st with
      | (st', r) =>
          match serve py reqs' st' with
          | (st'', rs) => (st'', r :: rs)
          end
      end
  end.

(** ** Vocabulary of the properties *)

(** [x] occurs in [s]. *)
Definition occurs_in (x s : str) : Prop := exists a b, s = a ++ x ++ b.

(** [t] is [s] without its leading and trailing whitespace. *)
Definition stripped_of (s t : str) : Prop :=
  exists pre post,
    s = pre ++ t ++ post
    /\ forallb Str.isspace pre = true
    /\ forallb Str.isspace post = true
    /\ (forall c, head t = Some c -> Str.isspace c = false)
    /\ (forall c, last t = Some c -> Str.isspace c = false).

Definition is_create (ev : event) : bool :=
  match ev with TmpCreate _ => true | _ => false end.

Definition is_unlink (ev : event) : bool :=
  match ev with Unlink _ _ => true | _ => false end.

(** The extension the validator looks at. *)
Definition file_ext (py : runtime) (file : UploadFile) : str :=
  Str.lower (case_tables py) (Pathlib.Path_suffix (filename file)).

(** The upload passes the validation: [file_ext in allowed_types]. *)
Definition accepted (py : runtime) (file : UploadFile) : bool :=
  bool_decide (file_ext py file ∈ allowed_types).

(** The answer to an [HTTPException]. *)
Definition error_response (code : Z) (detail : str) : http_result :=
  Response {| status_code := code; content := [(lit "detail", detail)] |}.

(** The answer to a successful transcription. *)
Definition text_response (text : str) : http_result :=
  Response {| status_code := 200; content := [(lit "text", text)] |}.

(** The [detail] of a 400 answer. *)
Definition unsupported (py : runtime) (ext : str) : str :=
  lit "Unsupported file type: " ++ ext ++ lit ". Supported types: "
  ++ Str.join (lit ", ") (iterate (hash_order py)).

(** The [detail] of a 500 answer. *)
Definition failed (e : exn) : str :=
  lit "Transcription failed: " ++ str_of_exn e.





(** Every call of the transcriber in the trace asked for English. *)
Definition english_only (st : state) : Prop :=
  forall path lang, Transcribe path lang ∈ trace st -> lang = lit "en".


(** The same surroundings with another fate for the clean-up. *)
Definition with_cleanup (env : environment) (gone : bool)
    (err : option exn) : environment :=
  {| tmp_dir := tmp_dir env; tmp_names := tmp_names env;
     open_error := open_error env; write_error := write_error env;
     removed_by_other := gone; unlink_error := err |}.

(** The state a handler leaves when it started in [st], wrote [d] to the
    disk and added [evs] to the trace. *)
Definition at_ (st : state) (d : gmap str bytes) (evs : list event) : state :=
  {| model := model st; disk := d; trace := trace st ++ evs |}.

(** The [try] block of [transcribe] with its [except] clause. *)
Definition attempt (py : runtime) (env : environment) (file : UploadFile)
  : M frame JSONResponse :=
  try_except
    (transcribe_body env file (file_ext py file))
    (fun e =>
       on_proc (logger ERROR (lit "Transcription error: " ++ str_of_exn e));;
       raise (HTTPException 500
                (lit "Transcription failed: " ++ str_of_exn e))).

(** How the [except] clause leaves the frame. *)
Definition caught (st : state) (d : gmap str bytes) (evs : list event)
    (tf : option str) (e : exn) : frame * (exn + JSONResponse) :=
  ({| proc := at_ st d (evs ++ [Log ERROR (lit "Transcription error: "
                                          ++ str_of_exn e)]);
      temp_file := tf |},
   inl (HTTPException 500 (failed e))).

Definition processing (file : UploadFile) : event :=
  Log INFO (lit "Processing file: " ++ filename file).

Definition completed (text : str) : event :=
  Log INFO (lit "Transcription completed. Length: "
            ++ Str.of_int (Str.len text) ++ lit " chars").

Definition no_name : exn :=
  Exn (lit "FileExistsError")
      (lit "[Errno 17] No usable temporary file name found").

(** The eight ways the [try] block ends, with the frame the [finally]
    block then starts from. *)
Inductive try_block (py : runtime) (env : environment) (file : UploadFile)
    (st : state) : frame * (exn + JSONResponse) -> Prop :=
| open_fails e :
    open_error env = Some e ->
    try_block py env file st (caught st (disk st) [] None e)
| names_taken :
    open_error env = None ->
    free_name env (file_ext py file) (disk st) = None ->
    try_block py env file st (caught st (disk st) [] None no_name)
| read_fails p e :
    open_error env = None ->
    free_name env (file_ext py file) (disk st) = Some p ->
    read file = inl e ->
    try_block py env file st
      (caught st (<[p := []]> (disk st)) [TmpCreate p] (Some p) e)
| write_fails p data e :
    open_error env = None ->
    free_name env (file_ext py file) (disk st) = Some p ->
    read file = inr data ->
    write_error env = Some e ->
    try_block py env file st
      (caught st (<[p := []]> (disk st)) [TmpCreate p] (Some p) e)
| model_missing p data :
    open_error env = None ->
    free_name env (file_ext py file) (disk st) = Some p ->
    read file = inr data ->
    write_error env = None ->
    model st = None ->
    try_block py env file st
      (caught st (<[p := data]> (disk st))
         [TmpCreate p; TmpWrite p data; processing file] (Some p)
         (AttributeError "NoneType" "transcribe"))
| transcriber_fails p data whisper e :
    open_error env = None ->
    free_name env (file_ext py file) (disk st) = Some p ->
    read file = inr data ->
    write_error env = None ->
    model st = Some whisper ->
    whisper (<[p := data]> (disk st)) p (lit "en") = inl e ->
    try_block py env file st
      (caught st (<[p := data]> (disk st))
         [TmpCreate p; TmpWrite p data; processing file;
          Transcribe p (lit "en")] (Some p) e)
| text_not_str p data whisper result e :
    open_error env = None ->
    free_name env (file_ext py file) (disk st) = Some p ->
    read file = inr data ->
    write_error env = None ->
    model st = Some whisper ->
    whisper (<[p := data]> (disk st)) p (lit "en") = inr result ->
    py_strip (dict_get result (lit "text") (PyStr [])) = inl e ->
    try_block py env file st
      (caught st (<[p := data]> (disk st))
         [TmpCreate p; TmpWrite p data; processing file;
          Transcribe p (lit "en")] (Some p) e)
| transcribed p data whisper result text :
    open_error env = None ->
    free_name env (file_ext py file) (disk st) = Some p ->
    read file = inr data ->
    write_error env = None ->
    model st = Some whisper ->
    whisper (<[p := data]> (disk st)) p (lit "en") = inr result ->
    py_strip (dict_get result (lit "text") (PyStr [])) = inr text ->
    try_block py env file st
      ({| proc := at_ st (<[p := data]> (disk st))
                    [TmpCreate p; TmpWrite p data; processing file;
                     Transcribe p (lit "en"); completed text];
          temp_file := Some p |},
       inr {| status_code := 200; content := [(lit "text", text)] |}).

(** The state the [finally] block leaves, from the state [st] it starts
    in and the value [tf] of [temp_file]. *)
Definition after_cleanup (env : environment) (tf : option str) (st : state)
  : state :=
  match tf with
  | None => st
  | Some p =>
      if bool_decide (p = []) then st
      else if removed_by_other env then with_disk st (delete p (disk st))
      else match disk st !! p with
           | None => st
           | Some _ =>
               match unlink_error env with
               | Some e =>
                   with_trace st
                     (trace st ++
                      [Unlink p false;
                       Log WARNING (lit "Failed to delete temp file: "
                                    ++ str_of_exn e)])
               | None =>
                   with_trace (with_disk st (delete p (disk st)))
                     (trace st ++
                      [Unlink p true;
                       Log INFO (lit "Temporary file cleaned up")])
               end
           end
  end.

(** ** Sample inputs *)

Module Sample.

(** A runtime whose case tables leave non-ASCII strings alone; the
    samples only use ASCII names. *)
Definition py : runtime :=
  {| case_tables := fun s => s; hash_order := WMA |}.

Definition env : environment :=
  {| tmp_dir := lit "/tmp"; tmp_names := [lit "k3x9q2ab"; lit "p0w7m1cd"];
     open_error := None; write_error := None;
     removed_by_other := false; unlink_error := None |}.

Definition audio : bytes := [Byte.x52; Byte.x49; Byte.x46; Byte.x46].

Definition clip : UploadFile :=
  {| filename := lit "clip.MP3"; read := inr audio |}.

Definition notes : UploadFile :=
  {| filename := lit "notes.txt"; read := inr audio |}.

Definition README : UploadFile :=
  {| filename := lit "README"; read := inr audio |}.

(** A mock that answers [{"text": "  hello world  "}]. *)
Definition hello : Transcriber :=
  fun _ _ _ => inr {[ lit "text" := PyStr (lit "  hello world  ") ]}.


(** A mock that raises. *)
Definition broken : Transcriber :=
  fun _ _ _ => inl (Exn (lit "RuntimeError") (lit "corrupt audio")).

Definition OSError : exn :=
  Exn (lit "OSError") (lit "[Errno 28] No space left on device").

Definition ready (whisper : Transcriber) : state :=
  {| model := Some whisper; disk := ∅; trace := [] |}.

(** The temporary directory is full: [NamedTemporaryFile] raises. *)
Definition env_full : environment :=
  {| tmp_dir := lit "/tmp"; tmp_names := [lit "k3x9q2ab"; lit "p0w7m1cd"];
     open_error := Some OSError; write_error := None;
     removed_by_other := false; unlink_error := None |}.

(** The second request draws other names. *)
Definition env_again : environment :=
  {| tmp_dir := lit "/tmp"; tmp_names := [lit "x8r2t5ef"];
     open_error := None; write_error := None;
     removed_by_other := false; unlink_error := None |}.

(** An upload whose bytes cannot be read. *)
Definition cut_off : UploadFile :=
  {| filename := lit "clip.wav";
     read := inl (Exn (lit "RuntimeError") (lit "corrupt audio")) |}.

(** The path of the temporary file of [clip] in [env]. *)
Definition tmp_clip : str := lit "/tmp/tmpk3x9q2ab.mp3".


Definition whisper_loads : str -> exn + Transcriber :=
  fun _ => inr hello.

End Sample.

(** ** The entry point of [main.py] *)

(** What the interpreter of the process fixes for [int] and [repr]. *)
Record interpreter := {
  (** [sys.get_int_max_str_digits()]; [0] lifts the limit *)
  max_str_digits : Z;
  (** [repr(s)], as the error message of [int] quotes the string *)
  str_repr : str -> str;
  (** [int(s)] for a string with a non-ASCII character; the Unicode
      tables of decimal digits and spaces decide it *)
  unicode_int : str -> exn + Z
}.

Module Int.

(** [Py_ISSPACE] *)
Definition isspace (c : N) : bool :=
  ((9 <=? c) && (c <=? 13) || (c =? 32))%N.

Definition isdigit (c : N) : bool := ((48 <=? c) && (c <=? 57))%N.

Definition underscore : N := 95%N.
Definition plus : N := 43%N.
Definition minus : N := 45%N.

(** Leading whitespace is skipped. *)
Fixpoint skip_space (s : str) : str :=
  match s with
  | [] => []
  | c :: s' => if isspace c then skip_space s' else s
  end.

(** An optional sign. *)
Definition split_sign (s : str) : Z * str :=
  match s with
  | c :: s' =>
      if (c =? plus)%N then (1, s')
      else if (c =? minus)%N then (-1, s')
      else (1, s)
  | [] => (1, s)
  end.

(** The scan over digits and underscores: [None] on a doubled
    underscore, else the value and the number of the digits, whether the
    last character scanned was an underscore, and what is left. *)
Fixpoint scan (s : str) (prev_underscore : bool) (value count : Z)
  : option (Z * Z * bool * str) :=
  match s with
  | [] => Some (value, count, prev_underscore, [])
  | c :: s' =>
      if (c =? underscore)%N then
        if prev_underscore then None else scan s' true value count
      else if isdigit c then
        scan s' false (10 * value + (Z.of_N c - 48)) (count + 1)
      else Some (value, count, prev_underscore, s)
  end.

(** [ValueError: invalid literal for int() with base 10: ...] *)
Definition invalid (py : interpreter) (s : str) : exn :=
  Exn (lit "ValueError")
      (lit "invalid literal for int() with base 10: " ++ str_repr py s).

(** [ValueError: Exceeds the limit (... digits) ...] *)
Definition too_long (py : interpreter) (count : Z) : exn :=
  Exn (lit "ValueError")
      (lit "Exceeds the limit (" ++ Str.of_int (max_str_digits py)
       ++ lit " digits) for integer string conversion: value has "
       ++ Str.of_int count
       ++ lit " digits; use sys.set_int_max_str_digits() to increase the limit").

(** [int(s)] in base 10 for an ASCII string: whitespace, an optional
    sign, digits with single underscores between them, whitespace.  The
    limit on the number of digits only applies above 640 digits. *)
Definition of_ascii (py : interpreter) (s : str) : exn + Z :=
  match split_sign (skip_space s) with
  | (sign, body) =>
      match body with
      | [] => inl (invalid py s)
      | c :: _ =>
          if (c =? underscore)%N then inl (invalid py s)
          else
            match scan body false 0 0 with
            | None => inl (invalid py s)
            | Some (value, count, trailing, rest) =>
                if trailing : bool then inl (invalid py s)
                else if (640 <? count) && (0 <? max_str_digits py)
                        && (max_str_digits py <? count)
                then inl (too_long py count)
                else if count =? 0 then inl (invalid py s)
                else if forallb isspace rest then inr (sign * value)
                else inl (invalid py s)
            end
      end
  end.

(** [int(s)] for a str. *)
Definition of_str (py : interpreter) (s : str) : exn + Z :=
  if forallb Str.is_ascii s then of_ascii py s else unicode_int py s.

End Int.

(** The call [uvicorn.run(app, host=..., port=..., reload=...)]. *)
Record uvicorn_run := {
  app : str;
  host : str;
  port : Z;
  reload : bool
}.

(** [int(os.getenv("PORT", 8000))]: the variable is a string when it is
    set; the default is the integer 8000, which [int] returns as it is. *)
Definition getenv_port (py : interpreter) (environ : gmap str str)
  : exn + Z :=
  match environ !! lit "PORT" with
  | Some s => Int.of_str py s
  | None => inr 8000
  end.

(** The [if __name__ == "__main__":] block: the call of [uvicorn.run] it
    makes, or the exception that ends it before the call. *)
Definition main (py : interpreter) (environ : gmap str str)
  : exn + uvicorn_run :=
  match getenv_port py environ with
  | inl e => inl e
  | inr n =>
      inr {| app := lit "main:app"; host := lit "0.0.0.0"; port := n;
             reload := false |}
  end.

(** ** More vocabulary *)

Definition is_transcribe (ev : event) : bool :=
  match ev with Transcribe _ _ => true | _ => false end.

(** The clean-up of a request in [env] gets rid of the temporary file. *)
Definition deletes (env : environment) : Prop :=
  removed_by_other env = true \/ unlink_error env = None.

(** The status of an answer. *)
Definition status_of (r : http_result) : option Z :=
  match r with
  | Response resp => Some (status_code resp)
  | Uncaught _ => None
  end.

(** The characters [int] lets through in an ASCII string. *)
Definition numeral_char (c : N) : bool :=
  Int.isdigit c || Int.isspace c
  || (c =? Int.underscore)%N || (c =? Int.plus)%N || (c =? Int.minus)%N.

Module More.

(** A CPython with the default limit of 4300 digits; the samples are
    ASCII, and the quoting of [repr] is left out. *)
Definition cpython : interpreter :=
  {| max_str_digits := 4300;
     str_repr := fun s => lit "'" ++ s ++ lit "'";
     unicode_int := fun s =>
       inl (Exn (lit "ValueError")
                (lit "invalid literal for int() with base 10: '" ++ s
                 ++ lit "'")) |}.

Definition talk : UploadFile :=
  {| filename := lit "Talk.Final.WaV"; read := inr Sample.audio |}.

(** The clean-up cannot delete the file. *)
Definition env_stuck : environment :=
  {| tmp_dir := lit "/tmp"; tmp_names := [lit "k3x9q2ab"];
     open_error := None; write_error := None;
     removed_by_other := false;
     unlink_error := Some (Exn (lit "PermissionError")
                               (lit "[Errno 13] Permission denied")) |}.

(** A disk with a file of somebody else. *)
Definition busy_disk : gmap str bytes :=
  {[ lit "/tmp/tmpk3x9q2ab.mp3" := [Byte.x00]; lit "/etc/passwd" := [] ]}.

Definition busy (whisper : Transcriber) : state :=
  {| model := Some whisper; disk := busy_disk; trace := [] |}.

End More.

(** * Properties *)

(** ** The model on concrete inputs *)

Example strip_hello :
  Str.strip (lit "  hello world  ") = lit "hello world".
Proof. reflexivity. Qed.

Example of_int_42 : Str.of_int 42 = lit "42".
Proof. reflexivity. Qed.

Example suffix_upper :
  Pathlib.Path_suffix (lit "uploads/Talk.Final.MP3") = lit ".MP3".
Proof. reflexivity. Qed.

Example suffix_hidden : Pathlib.Path_suffix (lit ".mp3") = [].
Proof. reflexivity. Qed.

Example suffix_trailing_dot : Pathlib.Path_suffix (lit "song.") = [].
Proof. reflexivity. Qed.

Example suffix_dir : Pathlib.Path_suffix (lit "a.wav/") = lit ".wav".
Proof. reflexivity. Qed.

Example lower_mixed :
  Str.lower (case_tables Sample.py) (lit ".Mp3") = lit ".mp3".
Proof. reflexivity. Qed.

Example clip_accepted : accepted Sample.py Sample.clip = true.
Proof. vm_compute. reflexivity. Qed.

Example clip_transcribed :
  snd (POST_transcribe Sample.py Sample.env Sample.clip
         (Sample.ready Sample.hello))
  = text_response (lit "hello world").
Proof. vm_compute. reflexivity. Qed.

Example clip_events :
  trace (fst (POST_transcribe Sample.py Sample.env Sample.clip
                (Sample.ready Sample.hello)))
  = [TmpCreate (lit "/tmp/tmpk3x9q2ab.mp3");
     TmpWrite (lit "/tmp/tmpk3x9q2ab.mp3") Sample.audio;
     Log INFO (lit "Processing file: clip.MP3");
     Transcribe (lit "/tmp/tmpk3x9q2ab.mp3") (lit "en");
     Log INFO (lit "Transcription completed. Length: 11 chars");
     Unlink (lit "/tmp/tmpk3x9q2ab.mp3") true;
     Log INFO (lit "Temporary file cleaned up")].
Proof. vm_compute. reflexivity. Qed.

Example notes_rejected :
  snd (POST_transcribe Sample.py Sample.env Sample.notes
         (Sample.ready Sample.hello))
  = error_response 400
      (lit "Unsupported file type: .txt. Supported types: .wav, .mp3, .m4a").
Proof. vm_compute. reflexivity. Qed.

Example startup_serves :
  match startup Sample.whisper_loads (fresh_process ∅) with
  | Serving st => model st = Some Sample.hello
  | Exited _ => False
  end.
Proof. reflexivity. Qed.

(** ** Strings *)

Lemma mp3_allowed : mp3 ∈ allowed_types.
Proof. unfold allowed_types. set_solver. Qed.

Lemma wav_allowed : wav ∈ allowed_types.
Proof. unfold allowed_types. set_solver. Qed.

Lemma m4a_allowed : m4a ∈ allowed_types.
Proof. unfold allowed_types. set_solver. Qed.

Lemma allowed_types_inv t :
  t ∈ allowed_types -> t = mp3 \/ t = wav \/ t = m4a.
Proof.
  unfold allowed_types. rewrite !elem_of_union, !elem_of_singleton. tauto.
Qed.

Lemma empty_not_allowed : [] ∉ allowed_types.
Proof.
  intros H. apply allowed_types_inv in H.
  destruct H as [H | [H | H]]; vm_compute in H; congruence.
Qed.

Lemma occurs_in_app_r x a s : occurs_in x s -> occurs_in x (a ++ s).
Proof.
  intros (u & v & ->). exists (a ++ u), v. by rewrite <- app_assoc.
Qed.

Lemma occurs_in_app_l x s b : occurs_in x s -> occurs_in x (s ++ b).
Proof.
  intros (u & v & ->). exists u, (v ++ b). by rewrite <- !app_assoc.
Qed.

Lemma occurs_in_refl x : occurs_in x x.
Proof. exists [], []. by rewrite app_nil_r. Qed.

Lemma occurs_in_join sep x (parts : list str) :
  x ∈ parts -> occurs_in x (Str.join sep parts).
Proof.
  induction parts as [|p ps IH]; intros Hin.
  - by apply elem_of_nil in Hin.
  - apply elem_of_cons in Hin as [-> | Hin].
    + destruct ps; [apply occurs_in_refl|].
      cbn [Str.join]. apply occurs_in_app_l, occurs_in_refl.
    + destruct ps as [|q qs]; [by apply elem_of_nil in Hin|].
      change (Str.join sep (p :: q :: qs))
        with (p ++ sep ++ Str.join sep (q :: qs)).
      do 2 apply occurs_in_app_r. by apply IH.
Qed.

Lemma iterate_all o t : t ∈ allowed_types -> t ∈ iterate o.
Proof.
  intros H. apply allowed_types_inv in H.
  destruct H as [-> | [-> | ->]]; destruct o; cbn [iterate]; set_solver.
Qed.

Lemma iterate_perm o : iterate o ≡ₚ [mp3; wav; m4a].
Proof.
  destruct o; cbn [iterate].
  - reflexivity.
  - apply perm_skip, perm_swap.
  - apply perm_swap.
  - etrans; [apply perm_skip, perm_swap|]. apply perm_swap.
  - etrans; [apply perm_swap|]. apply perm_skip, perm_swap.
  - etrans; [apply perm_skip, perm_swap|].
    etrans; [apply perm_swap|]. apply perm_skip, perm_swap.
Qed.

(** [lstrip] removes a run of whitespace and stops at the first other
    character. *)
Lemma lstrip_spec s :
  exists pre,
    s = pre ++ Str.lstrip s
    /\ forallb Str.isspace pre = true
    /\ (forall c, head (Str.lstrip s) = Some c -> Str.isspace c = false).
Proof.
  induction s as [|c s (pre & Hs & Hpre & Hhead)].
  - exists []. by repeat split.
  - cbn [Str.lstrip]. destruct (Str.isspace c) eqn:Hc.
    + exists (c :: pre). split; [by cbn; rewrite <- Hs|].
      split; [by cbn; rewrite Hc|done].
    + exists []. split; [done|]. split; [done|]. cbn. by intros ? [= <-].
Qed.

Lemma lstrip_last s c :
  last s = Some c -> Str.isspace c = false -> last (Str.lstrip s) = Some c.
Proof.
  induction s as [|x s IH]; [done|]. intros Hlast Hc. cbn [Str.lstrip].
  destruct (Str.isspace x) eqn:Hx; [|done].
  apply IH; [|done]. destruct s; [|done].
  cbn in Hlast. injection Hlast as ->. congruence.
Qed.

Lemma forallb_reverse {A} (f : A -> bool) l :
  forallb f (reverse l) = forallb f l.
Proof.
  induction l as [|x l IH]; [done|].
  rewrite reverse_cons, forallb_app, IH. cbn. destruct (f x), (forallb f l); done.
Qed.

(** [strip] is what the words say: the text between the leading and the
    trailing run of whitespace. *)
Lemma strip_spec s : stripped_of s (Str.strip s).
Proof.
  unfold Str.strip, Str.rstrip.
  destruct (lstrip_spec s) as (pre & Hs & Hpre & Hhead).
  set (t := Str.lstrip s) in *.
  destruct (lstrip_spec (reverse t)) as (erp & Ht & Herp & Hlast).
  exists pre, (reverse erp). repeat split.
  - rewrite Hs at 1. f_equal.
    by rewrite <- reverse_app, <- Ht, reverse_involutive.
  - done.
  - by rewrite forallb_reverse.
  - intros c Hc. rewrite head_reverse in Hc.
    destruct t as [|c0 t'] eqn:Et; [done|].
    assert (Hc0 : Str.isspace c0 = false) by by apply Hhead.
    rewrite (lstrip_last _ c0) in Hc; [congruence| |done].
    by rewrite last_reverse.
  - intros c Hc. rewrite last_reverse in Hc. by apply Hlast.
Qed.

(** ** Paths *)

Lemma rfind_from_absent c s i last :
  c ∉ s -> Str.rfind_from c s i last = last.
Proof.
  revert i last. induction s as [|x s IH]; intros i last Hc; [done|].
  apply not_elem_of_cons in Hc as [Hx Hs]. cbn [Str.rfind_from].
  destruct (N.eqb_spec x c) as [->|_]; [done|]. by apply IH.
Qed.

(** A name without a dot has no suffix. *)
Lemma suffix_without_dot p :
  Pathlib.dot ∉ Pathlib.name p -> Pathlib.Path_suffix p = [].
Proof.
  intros Hdot. unfold Pathlib.Path_suffix, Str.rfind.
  by rewrite rfind_from_absent.
Qed.

(** ** Temporary files *)

Lemma free_name_fresh env suffix d p :
  free_name env suffix d = Some p -> d !! p = None.
Proof.
  unfold free_name. intros H. apply find_some in H as [_ H].
  by destruct (d !! p).
Qed.

Lemma free_name_nonempty env suffix d p :
  free_name env suffix d = Some p -> p <> [].
Proof.
  unfold free_name. intros H. apply find_some in H as [H _].
  apply in_map_iff in H as (n & <- & _). unfold os_path_join.
  destruct (last (tmp_dir env)) as [c|]; [|discriminate].
  destruct (c =? Pathlib.slash)%N; intros Hnil;
    apply app_eq_nil in Hnil as [_ Hnil]; discriminate Hnil.
Qed.

Opaque lit.

(** ** Running the handler *)

Ltac run :=
  unfold attempt, transcribe_body, cleanup, NamedTemporaryFile, tmp_write,
    file_read, model_transcribe, os_path_exists, os_unlink, set_temp_file,
    logger, emit, on_proc, try_except, or_raise, raise, get, modify,
    with_trace, with_disk, mbind, mret, M_bind, M_ret;
  simpl.

(** The [finally] block always returns, and leaves [after_cleanup]. *)
Lemma cleanup_run env fr :
  cleanup env fr =
  ({| proc := after_cleanup env (temp_file fr) (proc fr);
      temp_file := temp_file fr |}, inr tt).
Proof.
  destruct fr as [st tf]. unfold after_cleanup. run.
  destruct tf as [p|]; [|reflexivity].
  destruct (bool_decide (p = [])); [reflexivity|]. run.
  destruct (removed_by_other env); simpl.
  - by rewrite lookup_delete_eq.
  - destruct (disk st !! p); simpl; [|reflexivity].
    destruct (unlink_error env); simpl; by rewrite <- app_assoc.
Qed.

(** The [try] block ends in one of the eight ways. *)
Lemma attempt_run py env file st :
  try_block py env file st
    (attempt py env file {| proc := st; temp_file := None |}).
Proof.
  run.
  destruct (open_error env) as [e|] eqn:Hopen; simpl.
  { by apply open_fails. }
  destruct (free_name env (file_ext py file) (disk st)) as [p|] eqn:Hname;
    simpl.
  2: { by apply names_taken. }
  destruct (read file) as [e|data] eqn:Hread; simpl.
  { rewrite <- app_assoc. by apply read_fails. }
  destruct (write_error env) as [e|] eqn:Hwrite; simpl.
  { rewrite <- app_assoc. by eapply write_fails. }
  rewrite insert_insert_eq.
  destruct (model st) as [whisper|] eqn:Hmodel; simpl; rewrite <- Hmodel.
  2: { rewrite <- !app_assoc. by eapply model_missing. }
  destruct (whisper (<[p:=data]> (disk st)) p (lit "en")) as [e|result]
    eqn:Hcall; simpl.
  { rewrite <- !app_assoc. by eapply transcriber_fails. }
  destruct (py_strip (dict_get result (lit "text") (PyStr [])))
    as [e|text] eqn:Htext; simpl; rewrite <- !app_assoc.
  - by eapply text_not_str.
  - by eapply transcribed.
Qed.

(** An accepted upload: the [try] block, then the [finally] block; the
    answer is the one the [try] block ended with. *)
Lemma transcribe_accepted py env file st :
  accepted py file = true ->
  POST_transcribe py env file st
  = (after_cleanup env
       (temp_file (fst (attempt py env file {| proc := st; temp_file := None |})))
       (proc (fst (attempt py env file {| proc := st; temp_file := None |}))),
     respond (snd (attempt py env file {| proc := st; temp_file := None |}))).
Proof.
  intros Hacc. unfold POST_transcribe, transcribe. fold (file_ext py file).
  unfold accepted in Hacc. rewrite Hacc. cbn [negb].
  unfold with_locals, try_finally. fold (attempt py env file).
  destruct (attempt py env file {| proc := st; temp_file := None |})
    as [fr r].
  by rewrite cleanup_run.
Qed.

Lemma transcribe_run py env file st :
  accepted py file = true ->
  exists fr r,
    try_block py env file st (fr, r)
    /\ POST_transcribe py env file st
       = (after_cleanup env (temp_file fr) (proc fr), respond r).
Proof.
  intros Hacc. rewrite transcribe_accepted by done.
  pose proof (attempt_run py env file st) as Hrun.
  destruct (attempt py env file {| proc := st; temp_file := None |})
    as [fr r].
  by exists fr, r.
Qed.

(** A rejected upload: the handler raises before it does anything. *)
Lemma transcribe_rejected py env file st :
  accepted py file = false ->
  POST_transcribe py env file st
  = (st, error_response 400 (unsupported py (file_ext py file))).
Proof.
  intros Hacc. unfold POST_transcribe, transcribe. fold (file_ext py file).
  unfold accepted in Hacc. by rewrite Hacc.
Qed.

(** After the [try] block the file, when one was created, is on disk under
    a fresh name; the model is untouched. *)
Lemma try_block_frame py env file st fr r :
  try_block py env file st (fr, r) ->
  model (proc fr) = model st
  /\ match temp_file fr with
     | None =>
         (open_error env <> None
          \/ free_name env (file_ext py file) (disk st) = None)
         /\ disk (proc fr) = disk st
     | Some p =>
         open_error env = None
         /\ free_name env (file_ext py file) (disk st) = Some p
         /\ exists data, disk (proc fr) = <[p := data]> (disk st)
     end.
Proof.
  inversion 1; subst; cbn; (split; [done|]); eauto 10.
  all: split; [|done]; left; congruence.
Qed.

(** When a file was created, the [finally] block finds it on disk: what
    it leaves only depends on the fate of the clean-up. *)
Lemma after_cleanup_created env p st :
  p <> [] -> is_Some (disk st !! p) ->
  after_cleanup env (Some p) st
  = if removed_by_other env then with_disk st (delete p (disk st))
    else match unlink_error env with
         | Some e =>
             with_trace st
               (trace st ++
                [Unlink p false;
                 Log WARNING (lit "Failed to delete temp file: "
                              ++ str_of_exn e)])
         | None =>
             with_trace (with_disk st (delete p (disk st)))
               (trace st ++
                [Unlink p true; Log INFO (lit "Temporary file cleaned up")])
         end.
Proof.
  intros Hp [data Hdata]. unfold after_cleanup.
  rewrite bool_decide_eq_false_2 by done. by rewrite Hdata.
Qed.

(** The answer never is an exception that got through. *)
Lemma POST_transcribe_responds py env file st :
  exists resp, snd (POST_transcribe py env file st) = Response resp.
Proof.
  destruct (accepted py file) eqn:Hacc.
  - destruct (transcribe_run py env file st Hacc) as (fr & r & Hrun & ->).
    inversion Hrun; subst; cbn; eauto.
  - rewrite transcribe_rejected by done. cbn. eauto.
Qed.

(** ** The validator *)

(** C1. A filename whose lower-cased extension is outside the allow-list
    is answered with 400; the detail names the rejected extension and
    every allowed one; the state is left as it was, so the transcriber is
    not called and no temporary file is created. *)
Theorem unsupported_extension_is_400 py env file st :
  file_ext py file ∉ allowed_types ->
  POST_transcribe py env file st
  = (st, error_response 400
           (lit "Unsupported file type: " ++ file_ext py file
            ++ lit ". Supported types: "
            ++ Str.join (lit ", ") (iterate (hash_order py))))
  /\ occurs_in (file_ext py file) (unsupported py (file_ext py file))
  /\ (forall t, t ∈ allowed_types ->
        occurs_in t (unsupported py (file_ext py file)))
  /\ iterate (hash_order py) ≡ₚ [mp3; wav; m4a].
Proof.
  intros Hext. repeat split.
  - apply transcribe_rejected. by apply bool_decide_eq_false_2.
  - unfold unsupported. apply occurs_in_app_r, occurs_in_app_l, occurs_in_refl.
  - intros t Ht. unfold unsupported. do 3 apply occurs_in_app_r.
    by apply occurs_in_join, iterate_all.
  - apply iterate_perm.
Qed.

(** C7. A filename whose final component has no dot has the empty
    extension; the empty string is not allowed, and the answer is 400. *)
Theorem no_extension_is_unsupported py env file st :
  Pathlib.dot ∉ Pathlib.name (filename file) ->
  Pathlib.Path_suffix (filename file) = []
  /\ file_ext py file = []
  /\ ([] ∉ allowed_types)
  /\ POST_transcribe py env file st
     = (st, error_response 400
              (lit "Unsupported file type: " ++ lit ". Supported types: "
               ++ Str.join (lit ", ") (iterate (hash_order py)))).
Proof.
  intros Hdot.
  assert (Hext : file_ext py file = []).
  { unfold file_ext. by rewrite suffix_without_dot. }
  repeat split; [by apply suffix_without_dot|done|apply empty_not_allowed|].
  rewrite transcribe_rejected.
  - by rewrite Hext.
  - apply bool_decide_eq_false_2. rewrite Hext. apply empty_not_allowed.
Qed.

(** ** The language of the transcription *)

Ltac events_inv H :=
  repeat match type of H with
         | _ ∈ _ ++ _ => apply elem_of_app in H as [H|H]
         | _ ∈ _ :: _ => apply elem_of_cons in H as [H|H]
         | _ ∈ [] => by apply elem_of_nil in H
         end.

Lemma after_cleanup_english env tf st :
  english_only st -> english_only (after_cleanup env tf st).
Proof.
  intros Hst path lang. unfold after_cleanup.
  destruct tf as [p|]; [|apply Hst].
  destruct (bool_decide (p = [])); [apply Hst|].
  destruct (removed_by_other env); [apply Hst|].
  destruct (disk st !! p); [|apply Hst].
  destruct (unlink_error env); cbn; intros Hin; events_inv Hin;
    solve [by apply (Hst path) | discriminate Hin].
Qed.

Lemma try_block_english py env file st fr r :
  try_block py env file st (fr, r) ->
  english_only st -> english_only (proc fr).
Proof.
  intros Hrun Hst path lang.
  inversion Hrun; subst; cbn; intros Hin; events_inv Hin;
    solve [by apply (Hst path) | discriminate Hin | by injection Hin].
Qed.

Lemma POST_transcribe_english py env file st :
  english_only st -> english_only (fst (POST_transcribe py env file st)).
Proof.
  intros Hst. destruct (accepted py file) eqn:Hacc.
  - destruct (transcribe_run py env file st Hacc) as (fr & r & Hrun & ->).
    cbn [fst]. eapply after_cleanup_english, try_block_english; eauto.
  - by rewrite transcribe_rejected.
Qed.

(** C6. Whatever requests are served, in whatever surroundings, every call
    of the transcriber they add to the trace asks for the language
    ["en"]. *)
Theorem transcriber_always_english py reqs st :
  english_only st -> english_only (fst (serve py reqs st)).
Proof.
  revert st. induction reqs as [|[env file] reqs IH]; intros st Hst; [done|].
  cbn [serve].
  pose proof (POST_transcribe_english py env file st Hst) as Hst'.
  destruct (POST_transcribe py env file st) as [st' r]. cbn [fst] in Hst'.
  specialize (IH st' Hst').
  by destruct (serve py reqs st') as [st'' rs].
Qed.

(** ** The temporary file *)

(** The answer only depends on how the [try] block ended, not on the fate
    of the clean-up. *)
Lemma response_ignores_cleanup py env file st gone err :
  snd (POST_transcribe py (with_cleanup env gone err) file st)
  = snd (POST_transcribe py env file st).
Proof.
  destruct (accepted py file) eqn:Hacc.
  - by rewrite !transcribe_accepted.
  - by rewrite !transcribe_rejected.
Qed.

(** C2, as the code has it.  For an accepted upload at most one temporary
    file is created: exactly one, under a fresh name, when
    [NamedTemporaryFile] succeeds, and none when it raises.  When the
    request is over the disk is as it was before, whatever step failed,
    unless the deletion itself failed; then the file stays, a warning is
    logged, and the answer is the one the request would have had anyway.
    The answer always is a response. *)
Theorem temp_file_lifecycle py env file st :
  accepted py file = true ->
  (exists evs,
     trace (fst (POST_transcribe py env file st)) = trace st ++ evs
     /\ match open_error env,
              free_name env (file_ext py file) (disk st) with
        | None, Some p =>
            List.filter is_create evs = [TmpCreate p]
            /\ disk st !! p = None
            /\ match removed_by_other env, unlink_error env with
               | true, _ =>
                   disk (fst (POST_transcribe py env file st)) = disk st
               | false, None =>
                   Unlink p true ∈ evs
                   /\ disk (fst (POST_transcribe py env file st)) = disk st
               | false, Some e =>
                   Unlink p false ∈ evs
                   /\ is_Some (disk (fst (POST_transcribe py env file st)) !! p)
                   /\ Log WARNING (lit "Failed to delete temp file: "
                                   ++ str_of_exn e) ∈ evs
               end
        | _, _ =>
            List.filter is_create evs = []
            /\ disk (fst (POST_transcribe py env file st)) = disk st
        end)
  /\ (forall gone err,
        snd (POST_transcribe py (with_cleanup env gone err) file st)
        = snd (POST_transcribe py env file st))
  /\ (exists resp, snd (POST_transcribe py env file st) = Response resp).
Proof.
  intros Hacc.
  split; [|split; [intros; apply response_ignores_cleanup
                  |apply POST_transcribe_responds]].
  destruct (transcribe_run py env file st Hacc) as (fr & r & Hrun & ->).
  cbn [fst].
  inversion Hrun as [e Hopen|Hopen Hname|p e Hopen Hname|p data e Hopen Hname
                    |p data Hopen Hname|p data whisper e Hopen Hname
                    |p data whisper result e Hopen Hname
                    |p data whisper result text Hopen Hname];
    subst; rewrite Hopen; try rewrite Hname; cbn [temp_file proc].
  1, 2: by eexists; split; [reflexivity|].
  all: pose proof (free_name_fresh _ _ _ _ Hname) as Hfresh;
    pose proof (free_name_nonempty _ _ _ _ Hname) as Hp;
    rewrite after_cleanup_created
      by (done || (cbn; rewrite lookup_insert_eq; eauto));
    destruct (removed_by_other env), (unlink_error env) as [e'|];
    cbn; rewrite ?delete_insert_id by done;
    eexists; (split; [by rewrite <- ?app_assoc|]);
    (split; [done|split; [done|]]); try done.
  all: repeat split; try done; try (rewrite lookup_insert_eq; eauto).
  all: set_solver.
Qed.

(** ** Failures after the validation *)



(** Settles a scenario: of the eight ways the [try] block can end, all but
    the one the hypotheses describe are contradictory. *)
Ltac scenario Hacc :=
  match goal with
  | |- context [POST_transcribe ?py ?env ?file ?st] =>
      let fr := fresh "fr" in
      let r := fresh "r" in
      let Hrun := fresh "Hrun" in
      destruct (transcribe_run py env file st Hacc) as (fr & r & Hrun & ->);
      inversion Hrun; subst; try congruence
  end.








(** ** The text of the answer *)

Lemma dict_get_text (result : gmap str pyval) :
  dict_get result (lit "text") (PyStr [])
  = match result !! lit "text" with
    | Some v => v
    | None => PyStr []
    end.
Proof. unfold dict_get. by destruct (result !! lit "text"). Qed.


(** ** Repeating an upload *)


(** ** The clean-up *)

Lemma after_cleanup_unlinks env tf st :
  exists evs,
    trace (after_cleanup env tf st) = trace st ++ evs
    /\ forall p ok,
         Unlink p ok ∈ evs ->
         tf = Some p /\ removed_by_other env = false
         /\ is_Some (disk st !! p).
Proof.
  unfold after_cleanup.
  destruct tf as [p|];
    [|by exists []; split; [rewrite app_nil_r|intros ?? ?%elem_of_nil]].
  destruct (bool_decide (p = []));
    [by exists []; split; [rewrite app_nil_r|intros ?? ?%elem_of_nil]|].
  destruct (removed_by_other env);
    [by exists []; split; [rewrite app_nil_r|intros ?? ?%elem_of_nil]|].
  destruct (disk st !! p) as [data|] eqn:Hdata;
    [|by exists []; split; [rewrite app_nil_r|intros ?? ?%elem_of_nil]].
  destruct (unlink_error env) as [e|]; cbn;
    (eexists; split; [reflexivity|]);
    intros q ok Hin; events_inv Hin; try discriminate Hin;
    injection Hin as -> _; eauto.
Qed.

(** C10. The [finally] block always returns normally; it calls
    [os.unlink] only on the path kept in [temp_file], and only when that
    file is on disk at that moment.  When creating the temporary file
    fails the handler therefore attempts no deletion.  Whatever the
    deletion does, the handler answers with a response. *)
Theorem cleanup_is_safe py env :
  (forall fr,
     exists st',
       cleanup env fr = ({| proc := st'; temp_file := temp_file fr |}, inr tt)
       /\ exists evs,
            trace st' = trace (proc fr) ++ evs
            /\ forall p ok,
                 Unlink p ok ∈ evs ->
                 temp_file fr = Some p
                 /\ removed_by_other env = false
                 /\ is_Some (disk (proc fr) !! p))
  /\ (forall file st,
        accepted py file = true ->
        open_error env <> None
        \/ free_name env (file_ext py file) (disk st) = None ->
        exists evs,
          trace (fst (POST_transcribe py env file st)) = trace st ++ evs
          /\ List.filter is_unlink evs = [])
  /\ (forall file st,
        exists resp, snd (POST_transcribe py env file st) = Response resp).
Proof.
  refine (conj _ (conj _ _)).
  - intros fr. eexists. split; [apply cleanup_run|].
    apply after_cleanup_unlinks.
  - intros file st Hacc Hfail. scenario Hacc;
      destruct Hfail; try congruence; by eexists.
  - intros. apply POST_transcribe_responds.
Qed.

(** ** Start-up and the health check *)


(** ** The properties on the sample inputs *)

Transparent lit.

Lemma unsupported_extension_is_400_witness :
  (file_ext Sample.py Sample.notes ∉ allowed_types)
  /\ POST_transcribe Sample.py Sample.env Sample.notes
       (Sample.ready Sample.hello)
     = (Sample.ready Sample.hello,
        error_response 400
          (lit "Unsupported file type: .txt. Supported types: .wav, .mp3, .m4a")).
Proof.
  assert (H : file_ext Sample.py Sample.notes ∉ allowed_types).
  { apply (bool_decide_eq_false_1
             (file_ext Sample.py Sample.notes ∈ allowed_types)).
    vm_compute. reflexivity. }
  split; [exact H|].
  exact (proj1 (unsupported_extension_is_400 Sample.py Sample.env
                  Sample.notes (Sample.ready Sample.hello) H)).
Defined.

Lemma no_extension_is_unsupported_witness :
  (Pathlib.dot ∉ Pathlib.name (filename Sample.README))
  /\ file_ext Sample.py Sample.README = []
  /\ snd (POST_transcribe Sample.py Sample.env Sample.README
            (Sample.ready Sample.hello))
     = error_response 400
         (lit "Unsupported file type: . Supported types: .wav, .mp3, .m4a").
Proof.
  assert (H : Pathlib.dot ∉ Pathlib.name (filename Sample.README)).
  { apply (bool_decide_eq_false_1
             (Pathlib.dot ∈ Pathlib.name (filename Sample.README))).
    vm_compute. reflexivity. }
  destruct (no_extension_is_unsupported Sample.py Sample.env Sample.README
              (Sample.ready Sample.hello) H) as (_ & Hext & _ & Hpost).
  split; [exact H|]. split; [exact Hext|]. rewrite Hpost. reflexivity.
Defined.

Lemma transcriber_always_english_witness :
  english_only (Sample.ready Sample.hello)
  /\ english_only
       (fst (serve Sample.py
               [(Sample.env, Sample.clip); (Sample.env_again, Sample.clip)]
               (Sample.ready Sample.hello)))
  /\ Transcribe Sample.tmp_clip (lit "en")
       ∈ trace (fst (serve Sample.py
                       [(Sample.env, Sample.clip);
                        (Sample.env_again, Sample.clip)]
                       (Sample.ready Sample.hello))).
Proof.
  assert (H : english_only (Sample.ready Sample.hello)).
  { intros path lang Hin. cbn in Hin. by apply elem_of_nil in Hin. }
  split; [exact H|]. split.
  - exact (transcriber_always_english Sample.py _ _ H).
  - vm_compute. repeat constructor.
Defined.

Lemma temp_file_lifecycle_witness :
  accepted Sample.py Sample.clip = true
  /\ (forall gone err,
        snd (POST_transcribe Sample.py (with_cleanup Sample.env gone err)
               Sample.clip (Sample.ready Sample.hello))
        = snd (POST_transcribe Sample.py Sample.env Sample.clip
                 (Sample.ready Sample.hello))).
Proof.
  assert (H : accepted Sample.py Sample.clip = true)
    by (vm_compute; reflexivity).
  split; [exact H|].
  exact (proj1 (proj2 (temp_file_lifecycle Sample.py Sample.env Sample.clip
                         (Sample.ready Sample.hello) H))).
Defined.

(** C2 as stated fails: the temporary directory is full, the upload is
    accepted, and no temporary file is created, let alone exactly one. *)
Lemma exactly_one_temp_file_counterexample :
  accepted Sample.py Sample.clip = true
  /\ ~ (exists p,
          List.filter is_create
            (trace (fst (POST_transcribe Sample.py Sample.env_full
                           Sample.clip (Sample.ready Sample.hello))))
          = [TmpCreate p])
  /\ snd (POST_transcribe Sample.py Sample.env_full Sample.clip
            (Sample.ready Sample.hello))
     = error_response 500
         (lit "Transcription failed: [Errno 28] No space left on device").
Proof.
  split; [vm_compute; reflexivity|]. split.
  - intros [p Hp]. vm_compute in Hp. discriminate Hp.
  - vm_compute. reflexivity.
Qed.







Lemma cleanup_is_safe_witness :
  (accepted Sample.py Sample.clip = true
   /\ open_error Sample.env_full <> None)
  /\ exists evs,
       trace (fst (POST_transcribe Sample.py Sample.env_full Sample.clip
                     (Sample.ready Sample.hello)))
       = trace (Sample.ready Sample.hello) ++ evs
       /\ List.filter is_unlink evs = [].
Proof.
  assert (Hacc : accepted Sample.py Sample.clip = true)
    by (vm_compute; reflexivity).
  assert (Hopen : open_error Sample.env_full <> None) by discriminate.
  split; [by split|].
  exact (proj1 (proj2 (cleanup_is_safe Sample.py Sample.env_full))
           Sample.clip (Sample.ready Sample.hello) Hacc (or_introl Hopen)).
Defined.

(** * More properties of the code *)

(** ** The extension of a filename *)

Lemma split_no_sep sep s w : w ∈ Str.split sep s -> sep ∉ w.
Proof.
  revert w. induction s as [|c s IH]; intros w Hw.
  - cbn in Hw. apply list_elem_of_singleton in Hw as ->.
    apply not_elem_of_nil.
  - cbn [Str.split] in Hw. destruct (N.eqb_spec c sep) as [->|Hc].
    + apply elem_of_cons in Hw as [->|Hw]; [apply not_elem_of_nil|by apply IH].
    + destruct (Str.split sep s) as [|v vs].
      * apply list_elem_of_singleton in Hw as ->.
        apply not_elem_of_cons. split; [done|apply not_elem_of_nil].
      * apply elem_of_cons in Hw as [->|Hw].
        -- apply not_elem_of_cons. split; [done|]. apply IH. by left.
        -- apply IH. by right.
Qed.

Lemma split_without_sep sep s : sep ∉ s -> Str.split sep s = [s].
Proof.
  induction s as [|c s IH]; [done|]. intros Hs.
  apply not_elem_of_cons in Hs as [Hc Hs]. cbn [Str.split].
  destruct (N.eqb_spec c sep) as [->|_]; [done|]. by rewrite IH.
Qed.

Lemma last_filter_elem {A} (f : A -> bool) l d :
  List.last (List.filter f l) d = d \/ List.last (List.filter f l) d ∈ l.
Proof.
  induction l as [|x l IH]; [by left|]. cbn [List.filter].
  destruct (f x).
  - destruct (List.filter f l) as [|y ys] eqn:E.
    + right. cbn. by left.
    + destruct IH as [IH|IH].
      * change (List.last (x :: y :: ys) d) with (List.last (y :: ys) d).
        rewrite IH. by left.
      * right. change (List.last (x :: y :: ys) d) with (List.last (y :: ys) d).
        by right.
  - destruct IH as [IH|IH]; [by left|right; by right].
Qed.

(** The final component of a path holds no slash. *)
Lemma name_no_slash p : Pathlib.slash ∉ Pathlib.name p.
Proof.
  unfold Pathlib.name, Pathlib.parts.
  destruct (last_filter_elem
              (fun x => negb (bool_decide (x = [])) &&
                        negb (bool_decide (x = [Pathlib.dot])))
              (Str.split Pathlib.slash p) []) as [->|H].
  - apply not_elem_of_nil.
  - by eapply split_no_sep.
Qed.

(** A plain name is its own final component. *)
Lemma name_plain p :
  Pathlib.slash ∉ p -> p <> [] -> p <> [Pathlib.dot] -> Pathlib.name p = p.
Proof.
  intros Hslash Hnil Hdot. unfold Pathlib.name, Pathlib.parts.
  rewrite split_without_sep by done. cbn [List.filter].
  by rewrite !bool_decide_eq_false_2.
Qed.

(** [rfind] finds the last occurrence. *)
Lemma rfind_from_last c a b i last :
  c ∉ b ->
  Str.rfind_from c (a ++ c :: b) i last = i + Z.of_nat (length a).
Proof.
  intros Hb. revert i last. induction a as [|x a IH]; intros i last.
  - simpl. rewrite N.eqb_refl.
    rewrite rfind_from_absent by done. lia.
  - change ((x :: a) ++ c :: b) with (x :: (a ++ c :: b)).
    cbn [Str.rfind_from length]. rewrite IH. lia.
Qed.

Lemma rfind_from_spec c s i last :
  ((c ∉ s) /\ Str.rfind_from c s i last = last)
  \/ exists a b,
       s = a ++ c :: b /\ (c ∉ b)
       /\ Str.rfind_from c s i last = i + Z.of_nat (length a).
Proof.
  revert i last. induction s as [|x s IH]; intros i last.
  - left. split; [apply not_elem_of_nil|done].
  - cbn [Str.rfind_from].
    destruct (IH (i + 1) (if (x =? c)%N then i else last))
      as [[Hs Hr]|(a & b & -> & Hb & Hr)].
    + destruct (N.eqb_spec x c) as [->|Hx].
      * right. exists [], s. repeat split; [done|]. rewrite Hr. cbn. lia.
      * left. split; [|done]. apply not_elem_of_cons. by split.
    + right. exists (x :: a), b. repeat split; [done|]. rewrite Hr. cbn. lia.
Qed.

(** X1. The extension [Path(...).suffix] finds is empty, or a dot followed
    by at least one character, none of them a dot or a slash. *)
Theorem Path_suffix_shape p :
  Pathlib.Path_suffix p = []
  \/ exists ext,
       Pathlib.Path_suffix p = Pathlib.dot :: ext
       /\ ext <> [] /\ (Pathlib.dot ∉ ext) /\ (Pathlib.slash ∉ ext).
Proof.
  unfold Pathlib.Path_suffix, Str.rfind, Str.len, Str.slice_from.
  pose proof (name_no_slash p) as Hslash.
  destruct (rfind_from_spec Pathlib.dot (Pathlib.name p) 0 (-1))
    as [[_ ->]|(a & b & Hname & Hb & ->)]; [by left|].
  rewrite Hname in *. rewrite length_app. cbn [length].
  destruct (Z.ltb_spec 0 (0 + Z.of_nat (length a))) as [Ha|_]; [|by left].
  destruct (Z.ltb_spec (0 + Z.of_nat (length a))
              (Z.of_nat (length a + S (length b)) - 1)) as [Hlen|_];
    [|by left].
  right. exists b. cbn [andb].
  replace (Z.to_nat (0 + Z.of_nat (length a))) with (length a) by lia.
  rewrite drop_app_length. split; [done|]. split; [|split; [done|]].
  - intros ->. cbn [length] in Hlen. lia.
  - intros Hin. apply Hslash. apply elem_of_app. right. by right.
Qed.

Lemma ascii_lower_ascii c :
  Str.is_ascii (Str.ascii_lower c) = true -> Str.is_ascii c = true.
Proof.
  unfold Str.ascii_lower, Str.is_ascii.
  destruct ((65 <=? c) && (c <=? 90))%N eqn:Hc; [|done].
  intros _. apply andb_prop in Hc as [_ Hc].
  apply N.leb_le in Hc. apply N.ltb_lt. lia.
Qed.

Lemma ascii_lower_fixes c k :
  Str.ascii_lower c <> k -> (k < 65 \/ 90 < k)%N -> c <> k.
Proof.
  intros Hk Hrange ->. apply Hk. unfold Str.ascii_lower.
  destruct (N.leb_spec 65 k), (N.leb_spec k 90); cbn; (done || lia).
Qed.

(** What lower-cases to an ASCII word without dot or slash is such a
    word itself. *)
Lemma lower_preimage ext t :
  List.map Str.ascii_lower ext = t ->
  forallb Str.is_ascii t = true ->
  Pathlib.dot ∉ t ->
  forallb Str.is_ascii ext = true /\ (Pathlib.dot ∉ ext).
Proof.
  revert t. induction ext as [|c ext IH]; intros t <- Hascii Hdot.
  - split; [done|apply not_elem_of_nil].
  - cbn [List.map forallb] in Hascii, Hdot.
    apply andb_prop in Hascii as [Hc Hascii].
    apply not_elem_of_cons in Hdot as [Hc' Hdot].
    destruct (IH _ eq_refl Hascii Hdot) as [IH1 IH2].
    split.
    + cbn [forallb]. by rewrite ascii_lower_ascii.
    + apply not_elem_of_cons. split; [|done].
      intros Heq. symmetry in Heq. revert Heq.
      apply ascii_lower_fixes; [done|]. unfold Pathlib.dot. lia.
Qed.

Lemma allowed_tail t :
  Pathlib.dot :: t ∈ allowed_types ->
  t <> [] /\ forallb Str.is_ascii t = true /\ (Pathlib.dot ∉ t).
Proof.
  intros H. apply allowed_types_inv in H as [H|[H|H]];
    vm_compute in H; injection H as ->;
    (split; [done|split; [by vm_compute|]]);
    intros Hin; repeat (apply elem_of_cons in Hin as [Hin|Hin]; [done|]);
    by apply elem_of_nil in Hin.
Qed.

(** X2. A plain filename made of a non-empty stem, a dot and [mp3], [wav]
    or [m4a] in any mix of upper and lower case passes the validation,
    and its extension is the lower-case one. *)
Theorem any_case_is_accepted py file stem ext :
  filename file = stem ++ Pathlib.dot :: ext ->
  stem <> [] ->
  Pathlib.slash ∉ filename file ->
  Pathlib.dot :: List.map Str.ascii_lower ext ∈ allowed_types ->
  file_ext py file = Pathlib.dot :: List.map Str.ascii_lower ext
  /\ accepted py file = true.
Proof.
  intros Hname Hstem Hslash Hallowed.
  destruct (allowed_tail _ Hallowed) as (Hnil & Hascii & Hdot).
  destruct (lower_preimage ext _ eq_refl Hascii Hdot) as [Hext Hdot'].
  assert (Hext0 : ext <> []) by (by intros ->).
  assert (Hsuffix : Pathlib.Path_suffix (filename file) = Pathlib.dot :: ext).
  { unfold Pathlib.Path_suffix, Str.rfind, Str.len, Str.slice_from.
    rewrite name_plain; [|done|..].
    - rewrite Hname, rfind_from_last by done. rewrite length_app. cbn [length].
      destruct stem as [|x stem]; [done|]. destruct ext as [|y ext]; [done|].
      cbn [length].
      destruct (Z.ltb_spec 0 (0 + Z.of_nat (S (length stem)))); [|lia].
      destruct (Z.ltb_spec (0 + Z.of_nat (S (length stem)))
                  (Z.of_nat (S (length stem) + S (S (length ext))) - 1));
        [|lia].
      cbn [andb].
      replace (Z.to_nat (0 + Z.of_nat (S (length stem))))
        with (length (x :: stem)) by (cbn [length]; lia).
      by rewrite drop_app_length.
    - rewrite Hname. by destruct stem.
    - rewrite Hname. destruct stem as [|x [|y stem]]; [done| |done].
      by destruct ext. }
  assert (Hfile : file_ext py file
                  = Pathlib.dot :: List.map Str.ascii_lower ext).
  { unfold file_ext, Str.lower. rewrite Hsuffix. cbn [forallb].
    by rewrite Hext. }
  split; [done|]. unfold accepted. rewrite Hfile.
  by apply bool_decide_eq_true_2.
Qed.

Opaque lit.

(** ** What a request does to the disk and the trace *)

(** The ways the [finally] block can go. *)
Ltac cleanup_cases :=
  unfold after_cleanup;
  repeat match goal with
         | |- context [bool_decide (?p = [])] =>
             destruct (bool_decide (p = []))
         | |- context [removed_by_other ?env] =>
             destruct (removed_by_other env)
         | |- context [match ?d !! ?p with _ => _ end] =>
             destruct (d !! p)
         | |- context [unlink_error ?env] =>
             destruct (unlink_error env)
         end;
  cbn.

Lemma free_name_inv env suffix d p :
  free_name env suffix d = Some p ->
  exists n,
    n ∈ tmp_names env
    /\ p = os_path_join (tmp_dir env) (lit "tmp" ++ n ++ suffix).
Proof.
  unfold free_name. intros H. apply find_some in H as [H _].
  apply in_map_iff in H as (n & <- & Hn). exists n.
  split; [by apply list_elem_of_In|done].
Qed.

Lemma os_path_join_suffix a b t : t `suffix_of` b -> t `suffix_of` os_path_join a b.
Proof.
  intros [k ->]. unfold os_path_join. destruct (last a) as [c|].
  - destruct (c =? Pathlib.slash)%N.
    + exists (a ++ k). by rewrite <- app_assoc.
    + exists (a ++ lit "/" ++ k). by rewrite <- !app_assoc.
  - by exists k.
Qed.

(** X3. A temporary file the handler creates is named after one of the
    drawn names, in the temporary directory, with the prefix [tmp] and
    the lower-cased, allowed extension of the upload; no file of that name
    existed. *)
Theorem temp_file_name py env file st p :
  TmpCreate p ∈ trace (fst (POST_transcribe py env file st)) ->
  TmpCreate p ∉ trace st ->
  (exists n,
     n ∈ tmp_names env
     /\ p = os_path_join (tmp_dir env) (lit "tmp" ++ n ++ file_ext py file))
  /\ file_ext py file ∈ allowed_types
  /\ file_ext py file `suffix_of` p
  /\ disk st !! p = None.
Proof.
  intros Hin Hold. destruct (accepted py file) eqn:Hacc.
  2: { rewrite transcribe_rejected in Hin by done. done. }
  assert (Hext : file_ext py file ∈ allowed_types)
    by by apply bool_decide_eq_true_1 in Hacc.
  destruct (transcribe_run py env file st Hacc) as (fr & r & Hrun & Heq).
  rewrite Heq in Hin. cbn [fst] in Hin.
  assert (Hp : free_name env (file_ext py file) (disk st) = Some p).
  { inversion Hrun; subst; revert Hin; cbn [temp_file proc]; cleanup_cases;
      intros Hin; events_inv Hin; try done; try discriminate Hin;
      by injection Hin as ->. }
  destruct (free_name_inv _ _ _ _ Hp) as (n & Hn & ->).
  split; [by exists n|]. split; [done|]. split.
  - apply os_path_join_suffix. exists (lit "tmp" ++ n).
    by rewrite <- app_assoc.
  - by eapply free_name_fresh.
Qed.

(** X4. A request calls the transcriber at most once, and when it does,
    the upload was accepted and read, and the call comes right after a
    fresh temporary file was created, filled with the uploaded bytes and
    the processing line was logged: the path the transcriber gets is that
    file, the language is [en]. *)
Theorem transcriber_called_once py env file st :
  exists evs,
    trace (fst (POST_transcribe py env file st)) = trace st ++ evs
    /\ (List.filter is_transcribe evs = []
        \/ exists p data post,
             accepted py file = true
             /\ read file = inr data
             /\ disk st !! p = None
             /\ evs = [TmpCreate p; TmpWrite p data;
                       Log INFO (lit "Processing file: " ++ filename file);
                       Transcribe p (lit "en")] ++ post
             /\ List.filter is_transcribe post = []).
Proof.
  destruct (accepted py file) eqn:Hacc.
  2: { rewrite transcribe_rejected by done. exists [].
       split; [by rewrite app_nil_r|by left]. }
  destruct (transcribe_run py env file st Hacc) as (fr & r & Hrun & ->).
  cbn [fst].
  inversion Hrun as [| | | | |p data whisper e Hopen Hname Hdata
                    |p data whisper result e Hopen Hname Hdata
                    |p data whisper result text Hopen Hname Hdata];
    subst; cbn [temp_file proc];
    try (cleanup_cases; eexists;
         (split; [by rewrite <- ?app_assoc|]); by left).
  all: pose proof (free_name_fresh _ _ _ _ Hname) as Hfresh;
    cleanup_cases; eexists; (split; [by rewrite <- ?app_assoc|]);
    right; exists p, data; eexists; repeat split; try done.
Qed.

Lemma error_response_inj c d c' d' :
  error_response c d = error_response c' d' -> c = c' /\ d = d'.
Proof. unfold error_response. intros H. by simplify_eq. Qed.

Lemma Log_inj lvl msg lvl' msg' :
  Log lvl msg = Log lvl' msg' -> lvl = lvl' /\ msg = msg'.
Proof. intros H. by inversion H. Qed.

Lemma new_events st evs : drop (length (trace st)) (trace st ++ evs) = evs.
Proof. apply drop_app_length. Qed.

(** X5. For an accepted upload the answer is the 500 with the message
    [msg] exactly when the request logs the error line with that
    message. *)
Theorem failure_is_logged py env file st msg :
  accepted py file = true ->
  snd (POST_transcribe py env file st)
  = error_response 500 (lit "Transcription failed: " ++ msg)
  <-> Log ERROR (lit "Transcription error: " ++ msg)
        ∈ drop (length (trace st))
               (trace (fst (POST_transcribe py env file st))).
Proof.
  intros Hacc.
  destruct (transcribe_run py env file st Hacc) as (fr & r & Hrun & ->).
  cbn [fst snd].
  inversion Hrun; subst; cbn [temp_file proc respond]; unfold failed.
  8: { split.
       - intros Hresp. by injection Hresp.
       - cleanup_cases; rewrite <- ?app_assoc, new_events;
           intros Hin; events_inv Hin; discriminate Hin. }
  all: split;
    [intros [_ Hmsg%app_inv_head]%error_response_inj; subst msg;
     cleanup_cases; rewrite <- ?app_assoc, new_events; set_solver
    |cleanup_cases; rewrite <- ?app_assoc, new_events;
     intros Hin; events_inv Hin; try discriminate Hin;
     apply Log_inj in Hin as [_ Hin%app_inv_head]; by subst msg].
Qed.

(** A request leaves the global [model] alone. *)
Lemma POST_transcribe_model py env file st :
  model (fst (POST_transcribe py env file st)) = model st.
Proof.
  destruct (accepted py file) eqn:Hacc.
  - destruct (transcribe_run py env file st Hacc) as (fr & r & Hrun & ->).
    cbn [fst]. inversion Hrun; subst; cbn [temp_file proc];
      by cleanup_cases.
  - by rewrite transcribe_rejected.
Qed.

Lemma serve_model py reqs st : model (fst (serve py reqs st)) = model st.
Proof.
  revert st. induction reqs as [|[env file] reqs IH]; intros st; [done|].
  cbn [serve].
  pose proof (POST_transcribe_model py env file st) as Hst.
  destruct (POST_transcribe py env file st) as [st' r]. cbn [fst] in Hst.
  specialize (IH st').
  destruct (serve py reqs st') as [st'' rs]. cbn [fst] in *. congruence.
Qed.

(** X6. Once the start-up hook has returned, the model every later request
    finds, however many requests were served before it, is the one
    [whisper.load_model("tiny")] returned: no request replaces or clears
    it. *)
Theorem served_model_is_the_loaded_one py loader st0 st reqs :
  startup loader st0 = Serving st ->
  exists whisper,
    loader (lit "tiny") = inr whisper
    /\ model (fst (serve py reqs st)) = Some whisper.
Proof.
  intros Hstart. rewrite serve_model.
  revert Hstart. unfold startup, load_model. run.
  destruct (loader (lit "tiny")) as [e|whisper]; cbn; [done|].
  intros [= <-]. by exists whisper.
Qed.

(** What a request does to a file that was there before it: nothing. *)
Lemma POST_transcribe_keeps py env file st q data :
  disk st !! q = Some data ->
  disk (fst (POST_transcribe py env file st)) !! q = Some data.
Proof.
  intros Hq. destruct (accepted py file) eqn:Hacc.
  2: { by rewrite transcribe_rejected. }
  destruct (transcribe_run py env file st Hacc) as (fr & r & Hrun & ->).
  cbn [fst].
  inversion Hrun as [| |p e Hopen Hname|p d e Hopen Hname|p d Hopen Hname
                    |p d w e Hopen Hname|p d w res e Hopen Hname
                    |p d w res t Hopen Hname];
    subst; cbn [temp_file proc]; try by cleanup_cases.
  all: pose proof (free_name_fresh _ _ _ _ Hname) as Hfresh;
    assert (p <> q) by congruence;
    cleanup_cases;
    rewrite ?lookup_delete_ne by done; by rewrite lookup_insert_ne.
Qed.

(** X7. No request, accepted or not, failed or not, modifies or deletes a
    file that was on disk before it; this holds along any sequence of
    requests. *)
Theorem existing_files_are_kept py reqs st q data :
  disk st !! q = Some data ->
  disk (fst (serve py reqs st)) !! q = Some data.
Proof.
  revert st. induction reqs as [|[env file] reqs IH]; intros st Hq; [done|].
  cbn [serve].
  pose proof (POST_transcribe_keeps py env file st q data Hq) as Hst.
  destruct (POST_transcribe py env file st) as [st' r]. cbn [fst] in Hst.
  specialize (IH st' Hst).
  by destruct (serve py reqs st') as [st'' rs].
Qed.

Lemma POST_transcribe_restores py env file st :
  deletes env -> disk (fst (POST_transcribe py env file st)) = disk st.
Proof.
  intros Hdel. destruct (accepted py file) eqn:Hacc.
  2: { by rewrite transcribe_rejected. }
  destruct (transcribe_run py env file st Hacc) as (fr & r & Hrun & ->).
  cbn [fst].
  inversion Hrun as [| |p e Hopen Hname|p d e Hopen Hname|p d Hopen Hname
                    |p d w e Hopen Hname|p d w res e Hopen Hname
                    |p d w res t Hopen Hname];
    subst; cbn [temp_file proc]; try done.
  all: pose proof (free_name_fresh _ _ _ _ Hname) as Hfresh;
    pose proof (free_name_nonempty _ _ _ _ Hname) as Hp;
    rewrite after_cleanup_created
      by (done || (cbn; rewrite lookup_insert_eq; eauto));
    destruct Hdel as [-> | ->];
    [|destruct (removed_by_other env)]; cbn; by rewrite delete_insert_id.
Qed.

(** X8. Along any sequence of requests whose clean-ups all get rid of
    their file, the disk at the end is the disk at the start, whatever
    the requests were and however each of them ended. *)
Theorem nothing_accumulates py reqs st :
  Forall (fun req => deletes (fst req)) reqs ->
  disk (fst (serve py reqs st)) = disk st.
Proof.
  revert st. induction reqs as [|[env file] reqs IH]; intros st Hall; [done|].
  apply Forall_cons in Hall as [Hdel Hall]. cbn [fst] in Hdel.
  cbn [serve].
  pose proof (POST_transcribe_restores py env file st Hdel) as Hst.
  destruct (POST_transcribe py env file st) as [st' r]. cbn [fst] in Hst.
  specialize (IH st' Hall).
  destruct (serve py reqs st') as [st'' rs]. cbn [fst] in *. congruence.
Qed.


(** ** The text of a 200 *)

Lemma lstrip_id t :
  (forall c, head t = Some c -> Str.isspace c = false) -> Str.lstrip t = t.
Proof.
  destruct t as [|c t]; [done|]. intros H. cbn [Str.lstrip].
  by rewrite (H c).
Qed.

(** Stripping a stripped text changes nothing. *)
Lemma strip_strip s : Str.strip (Str.strip s) = Str.strip s.
Proof.
  destruct (strip_spec s) as (pre & post & _ & _ & _ & Hhead & Hlast).
  set (t := Str.strip s) in *. unfold Str.strip at 1, Str.rstrip.
  rewrite (lstrip_id t) by done.
  rewrite (lstrip_id (reverse t)).
  - apply reverse_involutive.
  - intros c Hc. rewrite head_reverse in Hc. by apply Hlast.
Qed.

Lemma text_response_inj t t' : text_response t = text_response t' -> t = t'.
Proof. unfold text_response. intros H. by simplify_eq. Qed.

(** X10. A 200 is only given to an accepted upload whose bytes were read
    and handed, in a fresh temporary file, to the loaded model, and the
    text of the answer is what the model returned under [text] (the
    empty string when there is no such key), stripped: it neither begins
    nor ends with whitespace, and stripping it again changes nothing. *)
Theorem success_means_transcribed py env file st text :
  snd (POST_transcribe py env file st) = text_response text ->
  accepted py file = true
  /\ (exists p data whisper result,
        free_name env (file_ext py file) (disk st) = Some p
        /\ read file = inr data
        /\ model st = Some whisper
        /\ whisper (<[p := data]> (disk st)) p (lit "en") = inr result
        /\ ((result !! lit "text" = None /\ text = [])
            \/ exists s,
                 result !! lit "text" = Some (PyStr s)
                 /\ text = Str.strip s))
  /\ Str.strip text = text
  /\ (forall c, head text = Some c -> Str.isspace c = false)
  /\ (forall c, last text = Some c -> Str.isspace c = false).
Proof.
  intros Hresp. destruct (accepted py file) eqn:Hacc.
  2: { rewrite transcribe_rejected in Hresp by done.
       cbn [snd] in Hresp. by injection Hresp. }
  split; [done|].
  destruct (transcribe_run py env file st Hacc) as (fr & r & Hrun & Heq).
  rewrite Heq in Hresp. cbn [snd] in Hresp.
  inversion Hrun as [| | | | | |
                    |p data whisper result text' Hopen Hname Hdata Hwrite
                       Hmodel Hcall Htext];
    subst; cbn [respond] in Hresp; try by injection Hresp.
  apply (text_response_inj text' text) in Hresp as ->.
  rewrite dict_get_text in Htext.
  assert (Hs : exists s, text = Str.strip s
                         /\ ((result !! lit "text" = None /\ s = [])
                             \/ result !! lit "text" = Some (PyStr s))).
  { destruct (result !! lit "text") as [[|s|ty]|]; cbn in Htext;
      try discriminate Htext; injection Htext as <-;
      [exists s|exists []]; eauto. }
  destruct Hs as (s & -> & Hs). split.
  - exists p, data, whisper, result. repeat split; try done.
    destruct Hs as [[Hnone ->]|Hsome]; [by left|right; by exists s].
  - split; [apply strip_strip|].
    destruct (strip_spec s) as (pre & post & _ & _ & _ & Hhead & Hlast).
    by split.
Qed.

Transparent lit.

(** ** The port *)



Ltac scan_done d :=
  apply f_equal, (f_equal2 pair); [|reflexivity];
  apply (f_equal2 pair); [|by destruct d];
  apply (f_equal2 pair); [reflexivity|cbn [length]; lia].

Lemma lit_String a s : lit (String a s) = N_of_ascii a :: lit s.
Proof. reflexivity. Qed.

Lemma isdigit_range c : Int.isdigit c = true -> (48 <= c <= 57)%N.
Proof.
  unfold Int.isdigit. intros [H1 H2]%andb_prop.
  apply N.leb_le in H1, H2. lia.
Qed.

Lemma scan_digit c s prev value count :
  Int.isdigit c = true ->
  Int.scan (c :: s) prev value count
  = Int.scan s false (10 * value + (Z.of_N c - 48)) (count + 1).
Proof.
  intros Hc. cbn [Int.scan]. rewrite Hc.
  apply isdigit_range in Hc.
  destruct (N.eqb_spec c Int.underscore) as [->|_]; [|done].
  unfold Int.underscore in Hc. lia.
Qed.

(** Scanning the numeral of [d] reads all of it and computes what [d]
    denotes. *)
Lemma scan_uint_acc d prev acc count :
  Int.scan (lit (NilEmpty.string_of_uint d)) prev (Z.pos acc) count
  = Some (Z.pos (Pos.of_uint_acc d acc),
          count + Z.of_nat (length (lit (NilEmpty.string_of_uint d))),
          match d with Decimal.Nil => prev | _ => false end, []).
Proof.
  revert prev acc count.
  induction d as [|d IH|d IH|d IH|d IH|d IH|d IH|d IH|d IH|d IH|d IH];
    intros prev acc count.
  { cbn. by rewrite Z.add_0_r. }
  all: cbn [NilEmpty.string_of_uint Pos.of_uint_acc];
    rewrite lit_String, scan_digit by reflexivity;
    cbn [length];
    match goal with
    | |- Int.scan _ _ ?v _ = Some (Z.pos (Pos.of_uint_acc _ ?p), _, _, _) =>
        replace v with (Z.pos p) by (cbn; lia)
    end;
    rewrite IH; scan_done d.
Qed.

Lemma scan_uint d prev count :
  Int.scan (lit (NilEmpty.string_of_uint d)) prev 0 count
  = Some (Z.of_N (Pos.of_uint d),
          count + Z.of_nat (length (lit (NilEmpty.string_of_uint d))),
          match d with Decimal.Nil => prev | _ => false end, []).
Proof.
  revert prev count.
  induction d as [|d IH|d IH|d IH|d IH|d IH|d IH|d IH|d IH|d IH|d IH];
    intros prev count.
  { cbn. by rewrite Z.add_0_r. }
  { cbn [NilEmpty.string_of_uint Pos.of_uint].
    rewrite lit_String, scan_digit by reflexivity. cbn [length].
    change (10 * 0 + (Z.of_N (N_of_ascii "0") - 48)) with 0.
    rewrite IH. scan_done d. }
  all: cbn [NilEmpty.string_of_uint Pos.of_uint];
    rewrite lit_String, scan_digit by reflexivity;
    cbn [length];
    match goal with
    | |- Int.scan _ _ ?v _ = Some (Z.of_N (N.pos (Pos.of_uint_acc _ ?p)), _, _, _) =>
        change v with (Z.pos p)
    end;
    rewrite scan_uint_acc; scan_done d.
Qed.

Lemma uint_digits d :
  Forall (fun c => Int.isdigit c = true) (lit (NilEmpty.string_of_uint d)).
Proof.
  induction d; cbn [NilEmpty.string_of_uint]; [constructor|..];
    rewrite lit_String; by constructor.
Qed.

Lemma digit_is_ascii c : Int.isdigit c = true -> Str.is_ascii c = true.
Proof.
  intros Hc%isdigit_range. unfold Str.is_ascii. apply N.ltb_lt. lia.
Qed.

Lemma digit_is_plain c :
  Int.isdigit c = true ->
  Int.isspace c = false /\ (c =? Int.plus)%N = false
  /\ (c =? Int.minus)%N = false /\ (c =? Int.underscore)%N = false.
Proof.
  intros Hc%isdigit_range.
  unfold Int.isspace, Int.plus, Int.minus, Int.underscore.
  repeat split;
    repeat match goal with
           | |- context [(?a <=? ?b)%N] => destruct (N.leb_spec a b)
           | |- context [(?a =? ?b)%N] => destruct (N.eqb_spec a b)
           end; cbn; (done || lia).
Qed.

Lemma of_int_numeral n :
  Str.of_int n = lit (NilEmpty.string_of_uint (N.to_uint (Z.to_N n)))
  /\ N.to_uint (Z.to_N n) <> Decimal.Nil.
Proof.
  assert (H : N.to_uint (Z.to_N n) <> Decimal.Nil).
  { destruct (Z.to_N n); [discriminate|].
    apply DecimalPos.Unsigned.to_uint_nonnil. }
  split; [|done]. unfold Str.of_int, NilZero.string_of_uint.
  by destruct (N.to_uint (Z.to_N n)).
Qed.

(** [int(str(n)) = n]: reading back the numeral of a non-negative
    number of at most 640 digits. *)
Lemma int_of_int py n :
  0 <= n -> (length (Str.of_int n) <= 640)%nat ->
  Int.of_str py (Str.of_int n) = inr n.
Proof.
  intros Hn Hlen. destruct (of_int_numeral n) as [Heq Hnil].
  rewrite Heq in *. set (d := N.to_uint (Z.to_N n)) in *.
  pose proof (uint_digits d) as Hdigits.
  pose proof (scan_uint d false 0) as Hscan.
  assert (Hvalue : Z.of_N (Pos.of_uint d) = n).
  { change (Pos.of_uint d) with (N.of_uint d). unfold d.
    rewrite DecimalN.Unsigned.of_to. lia. }
  rewrite Hvalue in Hscan.
  unfold Int.of_str.
  assert (Hascii : forallb Str.is_ascii (lit (NilEmpty.string_of_uint d))
                   = true).
  { apply forallb_forall. intros c Hc. apply digit_is_ascii.
    rewrite Forall_forall in Hdigits. by apply Hdigits, list_elem_of_In. }
  rewrite Hascii. unfold Int.of_ascii.
  destruct (lit (NilEmpty.string_of_uint d)) as [|c ds] eqn:Hds.
  { destruct d; try done; cbn [NilEmpty.string_of_uint] in Hds;
      by rewrite lit_String in Hds. }
  apply Forall_cons in Hdigits as [Hc _].
  destruct (digit_is_plain c Hc) as (Hspace & Hplus & Hminus & Hus).
  cbn [Int.skip_space]. rewrite Hspace.
  cbn [Int.split_sign]. rewrite Hplus, Hminus, Hus, Hscan.
  replace (match d with Decimal.Nil => false | _ => false end)
    with false by by destruct d.
  destruct (Z.ltb_spec 640 (0 + Z.of_nat (length (c :: ds)))) as [H|_];
    [lia|].
  cbn [andb length].
  destruct (Z.eqb_spec (0 + Z.of_nat (S (length ds))) 0) as [H|_]; [lia|].
  cbn [forallb]. f_equal. lia.
Qed.

(** X11. Without [PORT] in the environment the server is started on port
    8000; with [PORT] set to the decimal numeral of [n] it is started on
    port [n].  In both cases it is the app [main:app] on all interfaces,
    without reload. *)
Theorem port_from_environment py environ n :
  0 <= n -> (length (Str.of_int n) <= 640)%nat ->
  (environ !! lit "PORT" = None /\ n = 8000)
  \/ environ !! lit "PORT" = Some (Str.of_int n) ->
  main py environ
  = inr {| app := lit "main:app"; host := lit "0.0.0.0"; port := n;
           reload := false |}.
Proof.
  intros Hn Hlen [[Hport ->]|Hport]; unfold main, getenv_port;
    rewrite Hport; [done|]. by rewrite int_of_int.
Qed.

Lemma skip_space_spec s :
  exists pre,
    s = pre ++ Int.skip_space s /\ forallb Int.isspace pre = true.
Proof.
  induction s as [|c s (pre & Hs & Hpre)]; [by exists []|].
  cbn [Int.skip_space]. destruct (Int.isspace c) eqn:Hc.
  - exists (c :: pre). split; [by cbn; rewrite <- Hs|by cbn; rewrite Hc].
  - by exists [].
Qed.

(** What the scan consumes are digits and underscores; it counts the
    digits. *)
Lemma scan_spec s prev value count value' count' trailing rest :
  Int.scan s prev value count = Some (value', count', trailing, rest) ->
  exists consumed,
    s = consumed ++ rest
    /\ forallb (fun c => Int.isdigit c || (c =? Int.underscore)%N) consumed
       = true
    /\ (count < count' -> exists c, c ∈ consumed /\ Int.isdigit c = true).
Proof.
  revert prev value count.
  induction s as [|c s IH]; intros prev value count Hscan.
  - cbn in Hscan. injection Hscan as <- <- <- <-. exists [].
    split; [done|]. split; [done|]. lia.
  - cbn [Int.scan] in Hscan.
    destruct (c =? Int.underscore)%N eqn:Hus.
    + destruct prev; [done|].
      destruct (IH _ _ _ Hscan) as (consumed & -> & Hall & Hdigit).
      exists (c :: consumed). split; [done|]. split.
      * cbn [forallb]. rewrite Hus, Hall. by destruct (Int.isdigit c).
      * intros Hlt. destruct (Hdigit Hlt) as (x & Hx & Hd).
        exists x. split; [by right|done].
    + destruct (Int.isdigit c) eqn:Hd.
      * destruct (IH _ _ _ Hscan) as (consumed & -> & Hall & _).
        exists (c :: consumed). split; [done|]. split.
        -- cbn [forallb]. by rewrite Hd, Hall.
        -- intros _. exists c. split; [by left|done].
      * injection Hscan as <- <- <- <-. exists [].
        split; [done|]. split; [done|]. lia.
Qed.

Lemma forallb_weaken {A} (f g : A -> bool) l :
  (forall x, f x = true -> g x = true) ->
  forallb f l = true -> forallb g l = true.
Proof.
  intros Hfg. rewrite !forallb_forall. auto.
Qed.

(** An ASCII string [int] accepts is made of digits, whitespace,
    underscores and signs, and holds a digit. *)
Lemma of_ascii_numeral py s n :
  Int.of_ascii py s = inr n ->
  forallb numeral_char s = true
  /\ exists c, c ∈ s /\ Int.isdigit c = true.
Proof.
  unfold Int.of_ascii.
  destruct (skip_space_spec s) as (pre & Hs & Hpre).
  destruct (Int.split_sign (Int.skip_space s)) as [sign body] eqn:Hsign.
  destruct body as [|c body]; [done|].
  destruct (c =? Int.underscore)%N; [done|].
  destruct (Int.scan (c :: body) false 0 0)
    as [[[[value count] trailing] rest]|] eqn:Hscan; [|done].
  destruct trailing; [done|].
  destruct ((640 <? count) && (0 <? max_str_digits py)
            && (max_str_digits py <? count)); [done|].
  destruct (Z.eqb_spec count 0) as [|Hcount]; [done|].
  destruct (forallb Int.isspace rest) eqn:Hrest; [|done]. intros _.
  destruct (scan_spec _ _ _ _ _ _ _ _ Hscan) as (consumed & Hbody & Hall & Hdigit).
  assert (Hpos : 0 < count).
  { destruct (Z.lt_total 0 count) as [|[|Hneg]]; [done|congruence|].
    exfalso. clear -Hscan Hneg.
    assert (H : forall s0 prev v k v' k' t r,
               Int.scan s0 prev v k = Some (v', k', t, r) -> k <= k').
    { induction s0 as [|x s0 IH]; intros prev v k v' k' t r Hs.
      - cbn in Hs. injection Hs as <- <- <- <-. lia.
      - cbn [Int.scan] in Hs. destruct (x =? Int.underscore)%N.
        + destruct prev; [done|]. by eapply IH.
        + destruct (Int.isdigit x).
          * apply IH in Hs. lia.
          * injection Hs as <- <- <- <-. lia. }
    apply H in Hscan. lia. }
  destruct (Hdigit Hpos) as (x & Hx & Hd).
  assert (Htail : forallb numeral_char (c :: body) = true
                  /\ x ∈ c :: body).
  { rewrite Hbody. split.
    - rewrite forallb_app. apply andb_true_intro. split.
      + revert Hall. apply forallb_weaken. intros y Hy. unfold numeral_char.
        destruct (Int.isdigit y); [done|]. cbn in Hy. rewrite Hy.
        by destruct (Int.isspace y).
      + revert Hrest. apply forallb_weaken. intros y Hy. unfold numeral_char.
        rewrite Hy. by destruct (Int.isdigit y).
    - apply elem_of_app. by left. }
  destruct Htail as [Htail Hx'].
  assert (Hsigned : forallb numeral_char (Int.skip_space s) = true
                    /\ x ∈ Int.skip_space s).
  { revert Hsign. unfold Int.split_sign.
    destruct (Int.skip_space s) as [|y t]; [intros Heq; by simplify_eq|].
    destruct (y =? Int.plus)%N eqn:Hplus;
      [|destruct (y =? Int.minus)%N eqn:Hminus]; intros Heq; simplify_eq.
    - split; [|by right].
      change (forallb numeral_char (y :: c :: body))
        with (numeral_char y && forallb numeral_char (c :: body)).
      rewrite Htail, andb_true_r. unfold numeral_char. rewrite Hplus.
      by destruct (Int.isdigit y), (Int.isspace y), (y =? Int.underscore)%N.
    - split; [|by right].
      change (forallb numeral_char (y :: c :: body))
        with (numeral_char y && forallb numeral_char (c :: body)).
      rewrite Htail, andb_true_r. unfold numeral_char. rewrite Hminus.
      by destruct (Int.isdigit y), (Int.isspace y), (y =? Int.underscore)%N,
         (y =? Int.plus)%N.
    - done. }
  destruct Hsigned as [Hsigned Hx''].
  rewrite Hs. split.
  - rewrite forallb_app. apply andb_true_intro. split; [|done].
    revert Hpre. apply forallb_weaken. intros y Hy. unfold numeral_char.
    rewrite Hy. by destruct (Int.isdigit y).
  - exists x. split; [|done]. apply elem_of_app. by right.
Qed.

(** X12. With an ASCII value in [PORT], [uvicorn.run] is only reached when
    that value is made of digits, whitespace, underscores and signs and
    holds at least one digit; any other value ends the program with the
    [ValueError] of [int] before the server is started. *)
Theorem started_only_on_a_numeral py environ s :
  environ !! lit "PORT" = Some s ->
  forallb Str.is_ascii s = true ->
  (forallb numeral_char s = true
   /\ exists c, c ∈ s /\ Int.isdigit c = true)
  \/ exists msg, main py environ = inl (Exn (lit "ValueError") msg).
Proof.
  intros Hport Hascii. unfold main, getenv_port, Int.of_str.
  rewrite Hport, Hascii.
  destruct (Int.of_ascii py s) as [e|n] eqn:Hint.
  - right. revert Hint. unfold Int.of_ascii, Int.invalid, Int.too_long.
    repeat match goal with
           | |- context [match ?x with _ => _ end] => destruct x
           end; intros [= <-]; eauto.
  - left. by eapply of_ascii_numeral.
Qed.

(** ** These properties on sample inputs *)

Lemma any_case_is_accepted_witness :
  (filename More.talk = lit "Talk.Final" ++ Pathlib.dot :: lit "WaV"
   /\ lit "Talk.Final" <> []
   /\ (Pathlib.slash ∉ filename More.talk)
   /\ Pathlib.dot :: List.map Str.ascii_lower (lit "WaV") ∈ allowed_types)
  /\ file_ext Sample.py More.talk = lit ".wav"
  /\ accepted Sample.py More.talk = true.
Proof.
  assert (H1 : filename More.talk
               = lit "Talk.Final" ++ Pathlib.dot :: lit "WaV")
    by reflexivity.
  assert (H2 : lit "Talk.Final" <> []) by discriminate.
  assert (H3 : Pathlib.slash ∉ filename More.talk).
  { apply (bool_decide_eq_false_1 (Pathlib.slash ∈ filename More.talk)).
    vm_compute. reflexivity. }
  assert (H4 : Pathlib.dot :: List.map Str.ascii_lower (lit "WaV")
               ∈ allowed_types) by apply wav_allowed.
  split; [by repeat split|].
  exact (any_case_is_accepted Sample.py More.talk (lit "Talk.Final")
           (lit "WaV") H1 H2 H3 H4).
Defined.

Lemma temp_file_name_witness :
  (TmpCreate Sample.tmp_clip
     ∈ trace (fst (POST_transcribe Sample.py Sample.env Sample.clip
                     (Sample.ready Sample.hello)))
   /\ (TmpCreate Sample.tmp_clip ∉ trace (Sample.ready Sample.hello)))
  /\ file_ext Sample.py Sample.clip `suffix_of` Sample.tmp_clip
  /\ disk (Sample.ready Sample.hello) !! Sample.tmp_clip = None.
Proof.
  assert (H1 : TmpCreate Sample.tmp_clip
               ∈ trace (fst (POST_transcribe Sample.py Sample.env Sample.clip
                               (Sample.ready Sample.hello))))
    by (vm_compute; repeat constructor).
  assert (H2 : TmpCreate Sample.tmp_clip ∉ trace (Sample.ready Sample.hello))
    by apply not_elem_of_nil.
  split; [by split|].
  exact (proj2 (proj2 (temp_file_name Sample.py Sample.env Sample.clip
                         (Sample.ready Sample.hello) Sample.tmp_clip H1 H2))).
Defined.

Lemma failure_is_logged_witness :
  accepted Sample.py Sample.clip = true
  /\ Log ERROR (lit "Transcription error: corrupt audio")
       ∈ drop (length (trace (Sample.ready Sample.broken)))
              (trace (fst (POST_transcribe Sample.py Sample.env Sample.clip
                             (Sample.ready Sample.broken)))).
Proof.
  assert (Hacc : accepted Sample.py Sample.clip = true)
    by (vm_compute; reflexivity).
  split; [exact Hacc|].
  apply (proj1 (failure_is_logged Sample.py Sample.env Sample.clip
                  (Sample.ready Sample.broken) (lit "corrupt audio") Hacc)).
  vm_compute. reflexivity.
Defined.

Lemma served_model_is_the_loaded_one_witness :
  startup Sample.whisper_loads (fresh_process ∅)
  = Serving (at_ (with_model (fresh_process ∅) (Some Sample.hello)) ∅
               [Log INFO (lit "Loading Whisper model (tiny)...");
                LoadModel (lit "tiny");
                Log INFO (lit "Model loaded successfully")])
  /\ exists whisper,
       Sample.whisper_loads (lit "tiny") = inr whisper
       /\ model (fst (serve Sample.py
                        [(Sample.env, Sample.clip);
                         (Sample.env_full, Sample.notes)]
                        (at_ (with_model (fresh_process ∅)
                                (Some Sample.hello)) ∅
                           [Log INFO (lit "Loading Whisper model (tiny)...");
                            LoadModel (lit "tiny");
                            Log INFO (lit "Model loaded successfully")])))
          = Some whisper.
Proof.
  assert (H : startup Sample.whisper_loads (fresh_process ∅)
              = Serving (at_ (with_model (fresh_process ∅)
                                (Some Sample.hello)) ∅
                           [Log INFO (lit "Loading Whisper model (tiny)...");
                            LoadModel (lit "tiny");
                            Log INFO (lit "Model loaded successfully")]))
    by reflexivity.
  split; [exact H|].
  exact (served_model_is_the_loaded_one Sample.py Sample.whisper_loads
           (fresh_process ∅) _
           [(Sample.env, Sample.clip); (Sample.env_full, Sample.notes)] H).
Defined.

Lemma existing_files_are_kept_witness :
  More.busy_disk !! lit "/tmp/tmpk3x9q2ab.mp3" = Some [Byte.x00]
  /\ disk (fst (serve Sample.py
                  [(Sample.env, Sample.clip); (More.env_stuck, More.talk)]
                  (More.busy Sample.hello)))
       !! lit "/tmp/tmpk3x9q2ab.mp3"
     = Some [Byte.x00].
Proof.
  assert (H : disk (More.busy Sample.hello) !! lit "/tmp/tmpk3x9q2ab.mp3"
              = Some [Byte.x00])
    by (vm_compute; reflexivity).
  split; [exact H|].
  exact (existing_files_are_kept Sample.py
           [(Sample.env, Sample.clip); (More.env_stuck, More.talk)]
           (More.busy Sample.hello) _ _ H).
Defined.

Lemma nothing_accumulates_witness :
  Forall (fun req => deletes (fst req))
    [(Sample.env, Sample.clip); (Sample.env_full, Sample.clip);
     (Sample.env_again, Sample.cut_off); (Sample.env, Sample.notes)]
  /\ disk (fst (serve Sample.py
                  [(Sample.env, Sample.clip); (Sample.env_full, Sample.clip);
                   (Sample.env_again, Sample.cut_off);
                   (Sample.env, Sample.notes)]
                  (More.busy Sample.hello)))
     = More.busy_disk.
Proof.
  assert (H : Forall (fun req : environment * UploadFile => deletes (fst req))
                [(Sample.env, Sample.clip); (Sample.env_full, Sample.clip);
                 (Sample.env_again, Sample.cut_off);
                 (Sample.env, Sample.notes)])
    by (repeat constructor; by right).
  split; [exact H|].
  exact (nothing_accumulates Sample.py _ (More.busy Sample.hello) H).
Defined.

Lemma success_means_transcribed_witness :
  snd (POST_transcribe Sample.py Sample.env Sample.clip
         (Sample.ready Sample.hello))
  = text_response (lit "hello world")
  /\ accepted Sample.py Sample.clip = true
  /\ Str.strip (lit "hello world") = lit "hello world".
Proof.
  assert (H : snd (POST_transcribe Sample.py Sample.env Sample.clip
                     (Sample.ready Sample.hello))
              = text_response (lit "hello world"))
    by (vm_compute; reflexivity).
  split; [exact H|].
  pose proof (success_means_transcribed Sample.py Sample.env Sample.clip
                (Sample.ready Sample.hello) (lit "hello world") H)
    as (Hacc & _ & Hstrip & _).
  by split.
Defined.

Lemma port_from_environment_witness :
  (0 <= 8080
   /\ (length (Str.of_int 8080) <= 640)%nat
   /\ ({[ lit "PORT" := lit "8080" ]} : gmap str str) !! lit "PORT"
      = Some (Str.of_int 8080))
  /\ main More.cpython {[ lit "PORT" := lit "8080" ]}
     = inr {| app := lit "main:app"; host := lit "0.0.0.0"; port := 8080;
              reload := false |}.
Proof.
  assert (H1 : 0 <= 8080) by lia.
  assert (H2 : (length (Str.of_int 8080) <= 640)%nat) by (vm_compute; lia).
  assert (H3 : ({[ lit "PORT" := lit "8080" ]} : gmap str str) !! lit "PORT"
               = Some (Str.of_int 8080))
    by (vm_compute; reflexivity).
  split; [by repeat split|].
  exact (port_from_environment More.cpython _ 8080 H1 H2 (or_intror H3)).
Defined.

Lemma started_only_on_a_numeral_witness :
  (({[ lit "PORT" := lit "80a80" ]} : gmap str str) !! lit "PORT"
   = Some (lit "80a80")
   /\ forallb Str.is_ascii (lit "80a80") = true)
  /\ forallb numeral_char (lit "80a80") = false
  /\ ((forallb numeral_char (lit "80a80") = true
       /\ exists c, c ∈ lit "80a80" /\ Int.isdigit c = true)
      \/ exists msg,
           main More.cpython {[ lit "PORT" := lit "80a80" ]}
           = inl (Exn (lit "ValueError") msg)).
Proof.
  assert (H1 : ({[ lit "PORT" := lit "80a80" ]} : gmap str str) !! lit "PORT"
               = Some (lit "80a80"))
    by (vm_compute; reflexivity).
  assert (H2 : forallb Str.is_ascii (lit "80a80") = true)
    by (vm_compute; reflexivity).
  split; [by split|]. split; [vm_compute; reflexivity|].
  exact (started_only_on_a_numeral More.cpython _ (lit "80a80") H1 H2).
Defined.
